(** * A print-order storefront: the JSON-file server and the upload widget

    Shallow embedding of [server.js] (the Express handlers over
    [data/orders.json], [data/files.json] and [uploads/]), of the
    [FileUploader] component (page counting and page selection), of the
    fixed-URL wrappers of [services/api.ts] and of the handlers of the admin
    page, with the properties its specification states about them and
    further properties read off the code.

    Conventions.
    - A JSON object is a finite map from property names to JSON values
      ([gmap string json]); an array is a list.  Property order is not
      observable through the HTTP API and is not modelled.
    - A request body is an object.  Express also lets an array through; the
      handlers only spread and destructure the body, which treats an array as
      the object of its indices.
    - Numbers that the handlers compute with (clock readings, sizes, page
      counts) are integers; they are printed in decimal by [pretty], as a
      template literal or string concatenation prints an integer.
    - The disk is a finite map from path strings to files.  Paths are compared
      as strings.
    - The clock, the random generator and the failures of the file system are
      inputs: every request comes with an [env] that says what they answer.
    - Calls of [console.error] and of the file system are recorded in a
      trace; [console.log] lines, the health check and the static routes are
      left out. *)

From Stdlib Require Import Ascii.
From stdpp Require Import gmap strings list pretty sorting.

#[local] Set Warnings "-register-all".
#[local] Open Scope string_scope.
#[local] Open Scope list_scope.
#[local] Open Scope Z_scope.

(** ** JSON values *)

Inductive json :=
  | JNull
  | JBool (b : bool)
  | JNum (n : Z)
  | JStr (s : string)
  | JArr (items : list json)
  | JObj (fields : gmap string json).

(** An object literal [{ k1: v1, ..., kn: vn }]. *)
Definition obj (fields : list (string * json)) : gmap string json :=
  list_to_map fields.

(** [v === s] for a string [s]; [None] is [undefined]. *)
Definition is_string (v : option json) (s : string) : bool :=
  match v with
  | Some (JStr t) => bool_decide (t = s)
  | _ => false
  end.

(** JavaScript truthiness of a JSON value. *)
Definition truthy (v : json) : bool :=
  match v with
  | JNull => false
  | JBool b => b
  | JNum n => negb (n =? 0)
  | JStr s => negb (bool_decide (s = ""))
  | JArr _ | JObj _ => true
  end.

(** [o.k = v] as [JSON.stringify] shows the object afterwards: a property
    that holds [undefined] is left out of the output.  The handlers look at
    an object they assigned to only by serialising it. *)
Definition set_prop (k : string) (v : option json) (o : gmap string json)
  : gmap string json :=
  match v with
  | Some x => <[k := x]> o
  | None => delete k o
  end.

(** ** The server *)

Module Server.

(** What a path of the disk holds: text that parses to an array of objects
    (the only shape the server writes to its stores), or anything that
    [JSON.parse] rejects (uploaded binaries, damaged stores). *)
Inductive node :=
  | Rows (rows : list (gmap string json))
  | Raw.

Inductive js_error :=
  | FsError (code : string)
  | SyntaxError
  | TypeError
  | MulterError (code : string).

(** [error.code]. *)
Definition error_code (err : js_error) : option string :=
  match err with
  | FsError c | MulterError c => Some c
  | _ => None
  end.

(** Calls on the file system and on [console.error], in program order. *)
Inductive event :=
  | FsRead (path : string)
  | FsWrite (path : string)
  | FsUnlink (path : string)
  | ConsoleError (msg : string) (detail : option json) (err : js_error).

Record world := World {
  disk : gmap string node;
  trace : list event
}.

(** The answers of the environment during one request. *)
Record env := Env {
  (** the k-th reading of [Date.now()] *)
  date_now : nat → Z;
  (** [new Date().toISOString()] *)
  date_iso : string;
  (** the k-th value of [Math.round(Math.random() * 1E9)] *)
  math_random_1e9 : nat → Z;
  (** the error code with which [fs.readFile] rejects, if it does for a
      reason of its own (a missing file needs no fault) *)
  read_fault : option string;
  (** the error code with which [fs.writeFile] rejects, if it does, and
      what the path holds afterwards *)
  write_fault : option (string * option node);
  (** the error code with which [fs.unlink] rejects a path, if it does *)
  unlink_fault : string → option string
}.

(** *** Computations that change the world or throw *)

Definition io (A : Type) : Type := world → (js_error + A) * world.

#[export] Instance io_ret : MRet io := λ A x w, (inr x, w).

#[export] Instance io_bind : MBind io := λ A B f m w,
  match m w with
  | (inl err, w') => (inl err, w')
  | (inr x, w') => f x w'
  end.

Definition throw {A} (err : js_error) : io A := λ w, (inl err, w).

Definition try_catch {A} (m : io A) (h : js_error → io A) : io A := λ w,
  match m w with
  | (inl err, w') => h err w'
  | (inr x, w') => (inr x, w')
  end.

Definition log (ev : event) (w : world) : world :=
  World (disk w) (trace w ++ [ev]).

Definition emit (ev : event) : io unit := λ w, (inr tt, log ev w).

(** *** The file system *)

Definition fs_readFile (e : env) (path : string) : io node := λ w,
  let w := log (FsRead path) w in
  match read_fault e with
  | Some c => (inl (FsError c), w)
  | None =>
      match disk w !! path with
      | None => (inl (FsError "ENOENT"), w)
      | Some n => (inr n, w)
      end
  end.

Definition fs_writeFile (e : env) (path : string) (data : node) : io unit := λ w,
  let w := log (FsWrite path) w in
  match write_fault e with
  | Some (c, remains) =>
      (inl (FsError c),
       World (partial_alter (λ _, remains) path (disk w)) (trace w))
  | None => (inr tt, World (<[path := data]> (disk w)) (trace w))
  end.

(** [fs.unlink(p)]: [p] must be a string. *)
Definition fs_unlink (e : env) (p : json) : io unit :=
  match p with
  | JStr path => λ w,
      let w := log (FsUnlink path) w in
      match unlink_fault e path with
      | Some c => (inl (FsError c), w)
      | None =>
          match disk w !! path with
          | None => (inl (FsError "ENOENT"), w)
          | Some _ => (inr tt, World (delete path (disk w)) (trace w))
          end
      end
  | _ => throw TypeError
  end.

Definition JSON_parse (data : node) : io (list (gmap string json)) :=
  match data with
  | Rows rows => mret rows
  | Raw => throw SyntaxError
  end.

(** *** Helper functions for data persistence *)

(** [readOrders] and [readFiles] are the same function at two paths. *)
Definition read_store (e : env) (path : string) : io (list (gmap string json)) :=
  try_catch
    (data ← fs_readFile e path; JSON_parse data)
    (λ error,
       if bool_decide (error_code error = Some "ENOENT") then mret []
       else throw error).

Definition readOrders (e : env) : io (list (gmap string json)) :=
  read_store e "data/orders.json".

Definition writeOrders (e : env) (orders : list (gmap string json)) : io unit :=
  fs_writeFile e "data/orders.json" (Rows orders).

Definition readFiles (e : env) : io (list (gmap string json)) :=
  read_store e "data/files.json".

Definition writeFiles (e : env) (files : list (gmap string json)) : io unit :=
  fs_writeFile e "data/files.json" (Rows files).

(** *** Responses *)

Record response := Response {
  res_status : Z;
  res_body : json
}.

(** [res.json(v)] *)
Definition res_json (v : json) : response := Response 200 v.

(** [res.status(c).json({ error: msg })] *)
Definition res_error (c : Z) (msg : string) : response :=
  Response c (JObj (obj [("error", JStr msg)])).

Definition rows_json (rows : list (gmap string json)) : json :=
  JArr (JObj <$> rows).

(** The [try { ... } catch (error) { console.error(msg, error);
    res.status(500).json({ error: failure }) }] around a handler's body. *)
Definition try_handler (body : io response) (msg failure : string)
  : world → response * world := λ w,
  match body w with
  | (inr r, w') => (r, w')
  | (inl err, w') =>
      (res_error 500 failure, log (ConsoleError msg None err) w')
  end.

(** The error handling middleware, reached by errors raised outside the
    handlers. *)
Definition error_middleware (err : js_error) : world → response * world := λ w,
  (res_error 500 "Internal server error",
   log (ConsoleError "Server error:" None err) w).

(** *** Orders *)

Definition get_orders (e : env) : io response :=
  orders ← readOrders e;
  mret (res_json (rows_json orders)).

(** The record that [POST /api/orders] builds: the body spread first, then
    the three stamped properties. *)
Definition newOrder (e : env) (body : gmap string json) : gmap string json :=
  <["status" := JStr "pending"]>
    (<["orderDate" := JStr (date_iso e)]>
       (<["orderId" := JStr ("ORD-" +:+ pretty (date_now e 0))]> body)).

Definition post_orders (e : env) (body : gmap string json) : io response :=
  orders ← readOrders e;
  let newOrder := newOrder e body in
  let orders := orders ++ [newOrder] in
  writeOrders e orders ;;
  mret (res_json (JObj newOrder)).

(** [order.orderId === orderId] *)
Definition has_id (orderId : string) (order : gmap string json) : Prop :=
  is_string (order !! "orderId") orderId.

Definition put_order (e : env) (orderId : string) (body : gmap string json)
  : io response :=
  let status := body !! "status" in
  orders ← readOrders e;
  match list_find (has_id orderId) orders with
  | None => mret (res_error 404 "Order not found")
  | Some (orderIndex, order) =>
      let orders := <[orderIndex := set_prop "status" status order]> orders in
      writeOrders e orders ;;
      mret (res_json (from_option JObj JNull (orders !! orderIndex)))
  end.

Definition get_order (e : env) (orderId : string) : io response :=
  orders ← readOrders e;
  match list_find (has_id orderId) orders with
  | None => mret (res_error 404 "Order not found")
  | Some (_, order) => mret (res_json (JObj order))
  end.

Definition delete_orders (e : env) : io response :=
  writeOrders e [] ;;
  mret (res_json (JObj (obj [("message", JStr "All orders deleted")]))).

(** *** Files *)

(** One part of a multipart submission, as multer reports it. *)
Record upload_part := Part {
  originalname : string;
  mimetype : string;
  size : Z
}.

(** A part once multer has stored it. *)
Record multer_file := MulterFile {
  part : upload_part;
  filename : string;
  path : string
}.

(** [limits.fileSize] *)
Definition fileSize_limit : Z := 50 * 1024 * 1024.

(** The [filename] callback of the disk storage, for the k-th file of a
    request. *)
Definition storage_filename (e : env) (k : nat) (file : upload_part) : string :=
  let uniqueSuffix := pretty (date_now e k) +:+ "-" +:+ pretty (math_random_1e9 e k) in
  uniqueSuffix +:+ "-" +:+ originalname file.

(** The [destination] callback joined with the file name. *)
Definition storage_path (filename : string) : string := "uploads/" +:+ filename.

Definition remove_uploaded (stored : list multer_file) : io unit := λ w,
  (inr tt,
   World (foldr (λ f d, delete (path f) d) (disk w) stored)
         (trace w ++ (FsUnlink ∘ path <$> stored))).

Definition store_blob (path : string) : io unit := λ w,
  (inr tt, World (<[path := Raw]> (disk w)) (trace w ++ [FsWrite path])).

(** [upload.array('files')]: multer stores the parts one after the other
    under the names the storage gives them.  A part whose size reaches the
    limit fails the request: its file has been opened under its name like
    the others, and multer then removes what it had stored, this file
    included; the parts after it are not looked at.  Writes of the binaries
    themselves are taken to succeed. *)
Fixpoint multer_store (e : env) (k : nat) (parts : list upload_part)
    (stored : list multer_file) : io (list multer_file) :=
  match parts with
  | [] => mret stored
  | file :: rest =>
      let filename := storage_filename e k file in
      let path := storage_path filename in
      store_blob path ;;
      if bool_decide (fileSize_limit ≤ size file) then
        remove_uploaded (stored ++ [MulterFile file filename path]) ;;
        throw (MulterError "LIMIT_FILE_SIZE")
      else
        multer_store e (S k) rest (stored ++ [MulterFile file filename path])
  end.

(** [req.files] after the middleware; [None] stands for a request that is
    not multipart, which multer lets through untouched. *)
Definition upload_array (e : env) (parts : option (list upload_part))
  : io (option (list multer_file)) :=
  match parts with
  | None => mret None
  | Some parts => stored ← multer_store e 0 parts []; mret (Some stored)
  end.

(** The metadata record of a stored file. *)
Definition file_record (file : multer_file) : gmap string json :=
  obj [ ("name", JStr (originalname (part file)));
        ("size", JNum (size (part file)));
        ("type", JStr (mimetype (part file)));
        ("path", JStr ("/uploads/" +:+ filename file));
        ("serverPath", JStr (path file)) ].

Definition post_upload (e : env) (req_files : option (list multer_file))
  : io response :=
  match req_files with
  | None | Some [] => mret (res_error 400 "No files uploaded")
  | Some req_files =>
      files ← readFiles e;
      let uploadedFiles := file_record <$> req_files in
      let files := files ++ uploadedFiles in
      writeFiles e files ;;
      mret (res_json (rows_json uploadedFiles))
  end.

Definition get_files (e : env) : io response :=
  files ← readFiles e;
  mret (res_json (rows_json files)).

(** The body of the loop that deletes the physical files: a failure is
    caught and logged inside the body. *)
Definition unlink_quietly (e : env) (file : gmap string json) : io unit :=
  try_catch
    (match file !! "serverPath" with
     | Some serverPath =>
         if truthy serverPath then fs_unlink e serverPath else mret tt
     | None => mret tt
     end)
    (λ error,
       emit (ConsoleError "Error deleting file:" (file !! "serverPath") error)).

(** [for (const file of files) { ... }] *)
Fixpoint delete_physical (e : env) (files : list (gmap string json)) : io unit :=
  match files with
  | [] => mret tt
  | file :: rest => unlink_quietly e file ;; delete_physical e rest
  end.

Definition delete_files (e : env) : io response :=
  files ← readFiles e;
  delete_physical e files ;;
  writeFiles e [] ;;
  mret (res_json (JObj (obj [("message", JStr "All files deleted")]))).

(** *** Admin login *)

Definition admin_login (body : gmap string json) : response :=
  let username := body !! "username" in
  let password := body !! "password" in
  if is_string username "admin" && is_string password "xerox123" then
    res_json (JObj (obj [("success", JBool true); ("token", JStr "admin-token")]))
  else
    res_error 401 "Invalid credentials".

(** *** Routes *)

Inductive request :=
  | GetOrders
  | PostOrders (body : gmap string json)
  | PutOrder (orderId : string) (body : gmap string json)
  | GetOrder (orderId : string)
  | DeleteOrders
  | PostUpload (files : option (list upload_part))
  | GetFiles
  | DeleteFiles
  | PostAdminLogin (body : gmap string json).

Definition handle (e : env) (req : request) : world → response * world :=
  match req with
  | GetOrders =>
      try_handler (get_orders e) "Error reading orders:" "Failed to read orders"
  | PostOrders body =>
      try_handler (post_orders e body) "Error creating order:" "Failed to create order"
  | PutOrder orderId body =>
      try_handler (put_order e orderId body) "Error updating order:" "Failed to update order"
  | GetOrder orderId =>
      try_handler (get_order e orderId) "Error finding order:" "Failed to find order"
  | DeleteOrders =>
      try_handler (delete_orders e) "Error deleting orders:" "Failed to delete orders"
  | PostUpload parts => λ w,
      match upload_array e parts w with
      | (inl err, w') => error_middleware err w'
      | (inr req_files, w') =>
          try_handler (post_upload e req_files)
            "Error uploading files:" "Failed to upload files" w'
      end
  | GetFiles =>
      try_handler (get_files e) "Error reading files:" "Failed to read files"
  | DeleteFiles =>
      try_handler (delete_files e) "Error deleting files:" "Failed to delete files"
  | PostAdminLogin body => λ w, (admin_login body, w)
  end.

(** Requests served one after the other, each under its own environment. *)
Fixpoint serve (reqs : list (env * request)) (w : world)
  : list response * world :=
  match reqs with
  | [] => ([], w)
  | (e, req) :: rest =>
      let '(r, w') := handle e req w in
      let '(rs, w'') := serve rest w' in
      (r :: rs, w'')
  end.

(** What a store lists: a missing file lists nothing, a file that does not
    parse lists no answer at all. *)
Definition listing (path : string) (w : world) : option (list (gmap string json)) :=
  match disk w !! path with
  | None => Some []
  | Some (Rows rows) => Some rows
  | Some Raw => None
  end.

(** An environment in which the stores are read and written without
    failure. *)
Definition calm (e : env) : Prop :=
  read_fault e = None ∧ write_fault e = None.

(** Reads and writes, as opposed to deletions and log lines. *)
Definition is_read_write (ev : event) : bool :=
  match ev with
  | FsRead _ | FsWrite _ => true
  | _ => false
  end.

(** The events a request added to the trace. *)
Definition added (w w' : world) : list event :=
  drop (length (trace w)) (trace w').

End Server.

(** ** The upload widget *)

Module FileUploader.

(** A browser [File], with what the PDF library finds in its bytes:
    [numPages] is [Some n] when [pdfjs.getDocument] resolves to a document of
    [n] pages and [None] when reading or parsing the bytes fails. *)
Record file := File {
  name : string;
  type : string;
  size : Z;
  numPages : option Z
}.

Definition allowedTypes : list string :=
  [ "application/pdf";
    "application/msword";
    "application/vnd.openxmlformats-officedocument.wordprocessingml.document" ].

Definition isValidFileType (f : file) : bool :=
  bool_decide (type f ∈ allowedTypes).

(** The loop of [calculateTotalPages], with its accumulator.  [random20 k]
    is the k-th value of [Math.floor(Math.random() * 20)]. *)
Fixpoint count_pages (random20 : nat → Z) (k : nat) (fileList : list file)
    (totalPages : Z) : Z :=
  match fileList with
  | [] => totalPages
  | f :: rest =>
      if bool_decide (type f = "application/pdf") then
        match numPages f with
        | Some n => count_pages random20 k rest (totalPages + n)
        | None =>
            (* Fallback to estimated page count *)
            let estimatedPages := random20 k + 1 in
            count_pages random20 (S k) rest (totalPages + estimatedPages)
        end
      else
        (* Rough estimate: 50KB per page *)
        let estimatedPages := Z.max 1 (size f `div` 50000) in
        count_pages random20 k rest (totalPages + estimatedPages)
  end.

Definition calculateTotalPages (random20 : nat → Z) (fileList : list file) : Z :=
  count_pages random20 0 fileList 0.

(** What the component reports to its parent. *)
Inductive callback :=
  | FilesChange (files : list file)
  | PageCountChange (pageCount : Z)
  | PageRangeChange (range : string).

(** The component state that the handlers below read and set; [selectedPages]
    is a JavaScript [Set], kept in insertion order without repetition. *)
Record state := State {
  files : list file;
  selectedPages : list Z
}.

Definition initial : state := State [] [].

(** [totalPages > 0 ? `1-${totalPages}` : 'all'] *)
Definition default_range (totalPages : Z) : string :=
  if bool_decide (0 < totalPages) then "1-" +:+ pretty totalPages else "all".

(** [handleFiles]; storing the files in the file storage service and the
    toasts leave the state and the callbacks as they are and are left out.
    [calculateTotalPages] catches its own failures, so the [catch] around
    its call is never entered. *)
Definition handleFiles (random20 : nat → Z) (st : state) (newFiles : list file)
  : state * list callback :=
  let validFiles := filter (λ f, isValidFileType f) newFiles in
  if bool_decide (0 < length validFiles)%nat then
    let updatedFiles := files st ++ validFiles in
    let totalPages := calculateTotalPages random20 updatedFiles in
    (State updatedFiles (selectedPages st),
     [ FilesChange updatedFiles;
       PageCountChange totalPages;
       PageRangeChange (default_range totalPages) ])
  else (st, []).

(** [files.filter((_, i) => i !== index)] *)
Definition remove_at (index : nat) (l : list file) : list file :=
  take index l ++ drop (S index) l.

Definition removeFile (random20 : nat → Z) (st : state) (index : nat)
  : state * list callback :=
  let updatedFiles := remove_at index (files st) in
  if bool_decide (length updatedFiles = 0%nat) then
    (State updatedFiles (selectedPages st),
     [ FilesChange updatedFiles; PageCountChange 0; PageRangeChange "all" ])
  else
    let totalPages := calculateTotalPages random20 updatedFiles in
    (State updatedFiles (selectedPages st),
     [ FilesChange updatedFiles;
       PageCountChange totalPages;
       PageRangeChange (default_range totalPages) ]).

(** [Set.prototype.has], [delete] and [add]. *)
Definition set_has (s : list Z) (x : Z) : bool := bool_decide (x ∈ s).
Definition set_delete (x : Z) (s : list Z) : list Z := filter (λ y, y ≠ x) s.
Definition set_add (x : Z) (s : list Z) : list Z :=
  if set_has s x then s else s ++ [x].

(** [pages.join(',')] on numbers. *)
Definition join_pages (pages : list Z) : string :=
  String.concat "," (pretty <$> pages).

Definition handlePageSelect (st : state) (pageNum : Z) : state * list callback :=
  let newSelectedPages :=
    if set_has (selectedPages st) pageNum
    then set_delete pageNum (selectedPages st)
    else set_add pageNum (selectedPages st) in
  (State (files st) newSelectedPages,
   [ if bool_decide (0 < length newSelectedPages)%nat then
       (* Array.from(newSelectedPages).sort((a, b) => a - b) *)
       let pages := merge_sort Z.le newSelectedPages in
       PageRangeChange (join_pages pages)
     else PageRangeChange "all" ]).

(** A run of clicks on pages of the preview: the state after the last click
    and everything reported on the way. *)
Fixpoint select_pages (st : state) (clicks : list Z) : state * list callback :=
  match clicks with
  | [] => (st, [])
  | pageNum :: rest =>
      let '(st', out) := handlePageSelect st pageNum in
      let '(st'', out') := select_pages st' rest in
      (st'', out ++ out')
  end.

End FileUploader.

(** ** The client: the wrappers of the API and the admin page *)

Module Client.
Import Server.

(** What a wrapper throws: the rejection of [fetch] itself, or the
    [new Error(message)] of the wrapper. *)
Inductive api_error :=
  | NetworkError
  | ApiError (message : string).

(** [response.ok] *)
Definition ok (r : response) : bool :=
  bool_decide (200 ≤ res_status r ≤ 299).

(** The body shared by the wrappers: [fetch], then
    [if (!response.ok) throw new Error(message)], then [response.json()].
    [online] says whether [fetch] reaches the server and gets its answer;
    a request that does not reach it leaves the server as it is. *)
Definition call (online : bool) (e : env) (req : request) (message : string)
  : world → (api_error + json) * world := λ w,
  if online then
    let '(r, w') := handle e req w in
    (if ok r then inr (res_body r) else inl (ApiError message), w')
  else (inl NetworkError, w).

(** The wrappers whose URL is fixed.  [getById] and [updateStatus] splice
    the [orderId] into the URL and [upload] builds a form; what Express and
    multer make of them depends on the browser and is left out. *)
Definition orderAPI_getAll (online : bool) (e : env) :=
  call online e GetOrders "Failed to fetch orders".
Definition orderAPI_create (online : bool) (e : env) (orderData : gmap string json) :=
  call online e (PostOrders orderData) "Failed to create order".
Definition orderAPI_deleteAll (online : bool) (e : env) :=
  call online e DeleteOrders "Failed to delete orders".
Definition fileAPI_getAll (online : bool) (e : env) :=
  call online e GetFiles "Failed to fetch files".
Definition fileAPI_deleteAll (online : bool) (e : env) :=
  call online e DeleteFiles "Failed to delete files".
Definition adminAPI_login (online : bool) (e : env) (username password : string) :=
  call online e
    (PostAdminLogin (obj [("username", JStr username); ("password", JStr password)]))
    "Invalid credentials".

(** What the admin page does besides setting its state. *)
Inductive effect :=
  | ToastInfo (message : string)
  | ToastSuccess (message : string)
  | ToastError (message : string)
  | LogError (message : string)
  | Navigate (to : string)
  | Reload.

(** The state of the admin page that its handlers set. *)
Record admin := Admin {
  isLoggedIn : bool;
  showClearFilesDialog : bool;
  showClearOrdersDialog : bool
}.

(** The effect run when the page is mounted, over [localStorage]. *)
Definition mount (localStorage : gmap string string) (st : admin)
  : admin * list effect :=
  let adminLoggedIn := bool_decide (localStorage !! "adminLoggedIn" = Some "true") in
  if negb adminLoggedIn then (st, [Navigate "/login"])
  else (Admin true (showClearFilesDialog st) (showClearOrdersDialog st), []).

Definition handleLogout (localStorage : gmap string string)
  : gmap string string * list effect :=
  (delete "adminLoggedIn" localStorage, [Navigate "/login"]).

(** [downloadAllFiles].  The server answers [GET /api/files] with an array
    whenever it answers 200; for a body that is no array the model takes
    the [catch] branch. *)
Definition downloadAllFiles (online : bool) (e : env) (w : world)
  : list effect * world :=
  match fileAPI_getAll online e w with
  | (inr (JArr files), w') =>
      if bool_decide (length files = 0%nat) then
        ([ToastInfo "No files available to download"], w')
      else
        ([ToastSuccess ("Found " +:+ pretty (length files)
                        +:+ " files. Download them individually from the files list.")],
         w')
  | (_, w') =>
      ([LogError "Error fetching files:"; ToastError "Failed to fetch files"], w')
  end.

Definition clearAllFiles (online : bool) (e : env) (st : admin) (w : world)
  : admin * list effect * world :=
  match fileAPI_deleteAll online e w with
  | (inr _, w') =>
      (Admin (isLoggedIn st) false (showClearOrdersDialog st),
       [ToastSuccess "All uploaded files have been cleared"], w')
  | (inl _, w') =>
      (st, [LogError "Error clearing files:"; ToastError "Failed to clear files"], w')
  end.

Definition clearAllOrders (online : bool) (e : env) (st : admin) (w : world)
  : admin * list effect * world :=
  match orderAPI_deleteAll online e w with
  | (inr _, w') =>
      (Admin (isLoggedIn st) (showClearFilesDialog st) false,
       [ToastSuccess "All orders have been cleared"; Reload], w')
  | (inl _, w') =>
      (st, [LogError "Error clearing orders:"; ToastError "Failed to clear orders"], w')
  end.

End Client.

(** ** Sample data *)

Module Sample.
Import Server.

(** A clock that advances by a millisecond at every reading, and no
    faults. *)
Definition quiet : env :=
  Env (λ k, 1700000000000 + Z.of_nat k) "2023-11-14T22:13:20.000Z"
      (λ k, 42 + Z.of_nat k) None None (λ _, None).

(** The same clock on a disk that refuses to be read. *)
Definition unreadable : env :=
  Env (date_now quiet) (date_iso quiet) (math_random_1e9 quiet)
      (Some "EACCES") None (λ _, None).

(** The same clock on a disk that refuses to be written. *)
Definition unwritable : env :=
  Env (date_now quiet) (date_iso quiet) (math_random_1e9 quiet)
      None (Some ("ENOSPC", None)) (λ _, None).

(** A clock and a random generator that are stuck. *)
Definition stuck : env :=
  Env (λ _, 1700000000000) "2023-11-14T22:13:20.000Z" (λ _, 7)
      None None (λ _, None).

(** The clock of [quiet] five milliseconds later. *)
Definition later : env :=
  Env (λ k, 1700000000005 + Z.of_nat k) "2023-11-14T22:13:20.005Z"
      (λ k, 42 + Z.of_nat k) None None (λ _, None).

(** The clock of [quiet] nine seconds later. *)
Definition evening : env :=
  Env (λ k, 1700000009000 + Z.of_nat k) "2023-11-14T22:13:29.000Z"
      (λ k, 42 + Z.of_nat k) None None (λ _, None).

(** A file system that refuses to delete one of the uploads. *)
Definition stubborn : env :=
  Env (date_now quiet) (date_iso quiet) (math_random_1e9 quiet) None None
      (λ p, if bool_decide (p = "uploads/1-2-scan.pdf") then Some "EPERM" else None).

Definition blank : world := World ∅ [].

(** Metadata of two uploads, and a disk that holds them. *)
Definition scan : gmap string json :=
  obj [("name", JStr "scan.pdf"); ("serverPath", JStr "uploads/1-2-scan.pdf")].
Definition memo : gmap string json :=
  obj [("name", JStr "memo.doc"); ("serverPath", JStr "uploads/1-3-memo.doc")].
Definition shelf : world :=
  World (<["data/files.json" := Rows [scan; memo]]>
           (<["uploads/1-2-scan.pdf" := Raw]>
              (<["uploads/1-3-memo.doc" := Raw]> ∅))) [].

(** A disk with one order, placed under [quiet]. *)
Definition placed : gmap string json :=
  obj [("name", JStr "Ann"); ("orderId", JStr "ORD-1700000000000");
       ("orderDate", JStr "2023-11-14T22:13:20.000Z"); ("status", JStr "pending")].
Definition ledger : world :=
  World (<["data/orders.json" := Rows [placed]]> ∅) [].

Definition ann : gmap string json :=
  obj [("name", JStr "Ann"); ("status", JStr "done"); ("orderId", JStr "mine")].

(** A file of exactly fifty megabytes. *)
Definition brim : upload_part := Part "brim.pdf" "application/pdf" 52428800.

(** A scan of sixty million bytes. *)
Definition atlas : upload_part := Part "atlas.pdf" "application/pdf" 60000000.

Definition report : upload_part := Part "report.pdf" "application/pdf" 120000.
Definition letter : upload_part := Part "letter.doc" "application/msword" 48000.

(** A PDF of twelve pages and a Word document of 120000 bytes in the
    browser. *)
Definition thesis : FileUploader.file :=
  FileUploader.File "thesis.pdf" "application/pdf" 900000 (Some 12).
Definition notes : FileUploader.file :=
  FileUploader.File "notes.doc" "application/msword" 120000 None.

(** A PDF that the PDF library cannot parse. *)
Definition torn : FileUploader.file :=
  FileUploader.File "torn.pdf" "application/pdf" 1000 None.

(** A picture, which the widget does not accept. *)
Definition photo : FileUploader.file :=
  FileUploader.File "photo.png" "image/png" 250000 None.

(** A random generator that always draws 0. *)
Definition zeros : nat → Z := λ _, 0.
End Sample.

(** ** Vocabulary of the properties *)

Import Server.

(** The [orderId] that a create-order request gets under [e]. *)
Definition stamp (e : env) : string := "ORD-" +:+ pretty (date_now e 0).

(** A run of create-order requests, each with its environment and body. *)
Definition create_all (steps : list (env * gmap string json))
  : list (env * request) :=
  (λ s, (s.1, PostOrders s.2)) <$> steps.

(** The records that such a run creates. *)
Definition created (steps : list (env * gmap string json))
  : list (gmap string json) :=
  (λ s, newOrder s.1 s.2) <$> steps.

(** No two records of a list carry the same [orderId]. *)
Definition ids_unique (rows : list (gmap string json)) : Prop :=
  ∀ i j r r', rows !! i = Some r → rows !! j = Some r' → i ≠ j →
              r !! "orderId" ≠ r' !! "orderId".

(** The first testable property of the orders API as it is worded: however
    the create-order requests follow each other, the records in the store
    carry distinct [orderId]s. *)
Definition create_ids_always_unique : Prop :=
  ∀ steps rows,
    Forall (λ s, calm s.1) steps →
    listing "data/orders.json" (serve (create_all steps) Sample.blank).2 = Some rows →
    ids_unique rows.

(** A string without the character [-]. *)
Fixpoint no_dash (s : string) : Prop :=
  match s with
  | "" => True
  | String c s' => c ≠ "-"%char ∧ no_dash s'
  end.

(** The files of a request as multer hands them to the upload handler: the
    k-th part under the name the storage gives it. *)
Fixpoint name_all (e : env) (k : nat) (parts : list upload_part)
  : list multer_file :=
  match parts with
  | [] => []
  | file :: rest =>
      MulterFile file (storage_filename e k file)
                 (storage_path (storage_filename e k file))
      :: name_all e (S k) rest
  end.

(** The disk once the binaries of these files are stored. *)
Definition store_blobs (stored : list multer_file) (d : gmap string node)
  : gmap string node :=
  foldl (λ d f, <[path f := Raw]> d) d stored.

(** The public paths of a list of metadata records. *)
Definition paths (records : list (gmap string json)) : list (option json) :=
  (λ r, r !! "path") <$> records.

(** The testable property of the upload API as it is worded: the records of
    the files of one upload always carry distinct paths. *)
Definition upload_paths_always_distinct : Prop :=
  ∀ e parts w records,
    calm e → parts ≠ [] →
    Forall (λ file, size file < fileSize_limit) parts →
    (handle e (PostUpload (Some parts)) w).1 = res_json (rows_json records) →
    NoDup (paths records).

(** The store that the handler of a request reads, if it reads one: an
    upload reads the file store once multer has let it through with at
    least one file, each of them below the size limit. *)
Definition read_path (req : request) : option string :=
  match req with
  | GetOrders | PostOrders _ | PutOrder _ _ | GetOrder _ =>
      Some "data/orders.json"
  | GetFiles | DeleteFiles => Some "data/files.json"
  | PostUpload (Some parts) =>
      if bool_decide (parts ≠ [] ∧ Forall (λ file, size file < fileSize_limit) parts)
      then Some "data/files.json" else None
  | PostUpload None | DeleteOrders | PostAdminLogin _ => None
  end.

(** The store that the handler of a request writes, when the store it read
    listed [rows]. *)
Definition write_path (req : request) (rows : list (gmap string json))
  : option string :=
  match req with
  | PostOrders _ | DeleteOrders => Some "data/orders.json"
  | PutOrder orderId _ =>
      if bool_decide (Exists (has_id orderId) rows)
      then Some "data/orders.json" else None
  | DeleteFiles => Some "data/files.json"
  | PostUpload _ => read_path req
  | GetOrders | GetOrder _ | GetFiles | PostAdminLogin _ => None
  end.

(** The message of the 500 response of a route. *)
Definition failure (req : request) : string :=
  match req with
  | GetOrders => "Failed to read orders"
  | PostOrders _ => "Failed to create order"
  | PutOrder _ _ => "Failed to update order"
  | GetOrder _ => "Failed to find order"
  | DeleteOrders => "Failed to delete orders"
  | PostUpload _ => "Failed to upload files"
  | GetFiles => "Failed to read files"
  | DeleteFiles => "Failed to delete files"
  | PostAdminLogin _ => ""
  end.

(** A read or a write of the file at [path]. *)
Definition touches (path : string) (ev : event) : bool :=
  match ev with
  | FsRead p | FsWrite p => String.eqb p path
  | _ => false
  end.

(** The accesses to the file at [path] among the events a request added. *)
Definition accesses (path : string) (w w' : world) : list event :=
  filter (λ ev, touches path ev) (added w w').

(** The world in which the handler of a request starts: for an upload,
    multer has stored the binaries by then. *)
Definition staged (e : env) (req : request) (w : world) : world :=
  match req with
  | PostUpload (Some parts) =>
      World (store_blobs (name_all e 0 parts) (disk w))
            (trace w ++ (FsWrite ∘ path <$> name_all e 0 parts))
  | _ => w
  end.

(** A page is selected after a run of clicks when it was clicked an odd
    number of times. *)
Definition selected_after (clicks : list Z) (p : Z) : Prop :=
  Nat.odd (length (filter (λ x, x = p) clicks)) = true.

(** The [orderId] properties of a list of orders, in order. *)
Definition order_ids (rows : list (gmap string json)) : list (option json) :=
  (λ r, r !! "orderId") <$> rows.

(** The [orderId]s that the create-order requests of a run hand out. *)
Definition stamps_of (reqs : list (env * request)) : list string :=
  omap (λ s, match s.2 with PostOrders _ => Some (stamp s.1) | _ => None end) reqs.

(** The number of pages that [calculateTotalPages] counts for a file whose
    bytes it can read; a PDF that fails to parse has no such number. *)
Definition pages_of (f : FileUploader.file) : option Z :=
  if bool_decide (FileUploader.type f = "application/pdf")
  then FileUploader.numPages f
  else Some (Z.max 1 (FileUploader.size f `div` 50000)).

(** The range that the last of a run of clicks reports. *)
Definition last_range (clicks : list Z) : option FileUploader.callback :=
  last (FileUploader.select_pages FileUploader.initial clicks).2.

(** The routes that only look: listing, lookup by id and login. *)
Definition read_only (req : request) : bool :=
  match req with
  | GetOrders | GetOrder _ | GetFiles | PostAdminLogin _ => true
  | _ => false
  end.

(** The routes of the orders API. *)
Definition order_route (req : request) : bool :=
  match req with
  | GetOrders | PostOrders _ | PutOrder _ _ | GetOrder _ | DeleteOrders => true
  | _ => false
  end.

(** The sum of a list of integers. *)
Definition sum_Z (l : list Z) : Z := foldr Z.add 0 l.

(** The files of a list whose page count is a number read off the file, and
    those for which a random count is drawn. *)
Definition counted (l : list FileUploader.file) : list Z :=
  omap pages_of l.
Definition guessed (l : list FileUploader.file) : list FileUploader.file :=
  filter (λ f, pages_of f = None) l.

(** The names under which multer stores the files of an upload. *)
Definition generated (e : env) (parts : option (list upload_part)) : list string :=
  match parts with
  | Some parts => path <$> name_all e 0 parts
  | None => []
  end.

(** ** Properties *)

(** *** Reading and writing a store *)

Section store_access.
Context (e : env) (path : string) (w : world).

Lemma read_store_rows rows :
  read_fault e = None → disk w !! path = Some (Rows rows) →
  read_store e path w = (inr rows, log (FsRead path) w).
Proof.
  intros He Hd. unfold read_store, try_catch, mbind, io_bind, fs_readFile.
  simpl. by rewrite He, Hd.
Qed.

Lemma read_store_missing :
  read_fault e = None → disk w !! path = None →
  read_store e path w = (inr [], log (FsRead path) w).
Proof.
  intros He Hd. unfold read_store, try_catch, mbind, io_bind, fs_readFile.
  simpl. by rewrite He, Hd.
Qed.

Lemma read_store_raw :
  read_fault e = None → disk w !! path = Some Raw →
  read_store e path w = (inl SyntaxError, log (FsRead path) w).
Proof.
  intros He Hd. unfold read_store, try_catch, mbind, io_bind, fs_readFile.
  simpl. by rewrite He, Hd.
Qed.

Lemma read_store_enoent :
  read_fault e = Some "ENOENT" →
  read_store e path w = (inr [], log (FsRead path) w).
Proof.
  intros He. unfold read_store, try_catch, mbind, io_bind, fs_readFile.
  simpl. by rewrite He.
Qed.

Lemma read_store_fault c :
  read_fault e = Some c → c ≠ "ENOENT" →
  read_store e path w = (inl (FsError c), log (FsRead path) w).
Proof.
  intros He Hc. unfold read_store, try_catch, mbind, io_bind, fs_readFile.
  simpl. rewrite He. simpl. rewrite bool_decide_eq_false_2; [done|congruence].
Qed.

Lemma read_store_listing rows :
  read_fault e = None → listing path w = Some rows →
  read_store e path w = (inr rows, log (FsRead path) w).
Proof.
  intros He. unfold listing. destruct (disk w !! path) as [[]|] eqn:Hd;
    intros [= <-]; eauto using read_store_rows, read_store_missing.
Qed.

Lemma write_store_ok data :
  write_fault e = None →
  fs_writeFile e path data w
  = (inr tt, World (<[path := data]> (disk w)) (trace w ++ [FsWrite path])).
Proof. intros He. unfold fs_writeFile. by rewrite He. Qed.

Lemma write_store_fault data c remains :
  write_fault e = Some (c, remains) →
  fs_writeFile e path data w
  = (inl (FsError c),
     World (partial_alter (λ _, remains) path (disk w)) (trace w ++ [FsWrite path])).
Proof. intros He. unfold fs_writeFile. by rewrite He. Qed.
End store_access.

Lemma added_app w evs d : added w (World d (trace w ++ evs)) = evs.
Proof. unfold added. simpl. by rewrite drop_app_length. Qed.

Lemma listing_insert path rows d t :
  listing path (World (<[path := Rows rows]> d) t) = Some rows.
Proof. unfold listing. simpl. by rewrite lookup_insert_eq. Qed.

Lemma listing_insert_ne path q n d t :
  path ≠ q → listing q (World (<[path := n]> d) t) = listing q (World d t).
Proof. intros. unfold listing. simpl. by rewrite lookup_insert_ne. Qed.

(** *** Creating orders *)

Lemma newOrder_lookup e body :
  newOrder e body !! "orderId" = Some (JStr ("ORD-" +:+ pretty (date_now e 0))) ∧
  newOrder e body !! "orderDate" = Some (JStr (date_iso e)) ∧
  newOrder e body !! "status" = Some (JStr "pending") ∧
  ∀ k, k ≠ "orderId" → k ≠ "orderDate" → k ≠ "status" →
       newOrder e body !! k = body !! k.
Proof.
  unfold newOrder. repeat split.
  - by rewrite !lookup_insert_ne, lookup_insert_eq by done.
  - by rewrite lookup_insert_ne, lookup_insert_eq by done.
  - by rewrite lookup_insert_eq.
  - intros k ???. by rewrite !lookup_insert_ne by done.
Qed.

Lemma post_orders_ok e body w orders :
  calm e → listing "data/orders.json" w = Some orders →
  handle e (PostOrders body) w
  = (res_json (JObj (newOrder e body)),
     World (<["data/orders.json" := Rows (orders ++ [newOrder e body])]> (disk w))
           (trace w ++ [FsRead "data/orders.json"; FsWrite "data/orders.json"])).
Proof.
  intros [Hr Hw] Hl. simpl. unfold try_handler, post_orders, readOrders, writeOrders.
  unfold mbind, io_bind. rewrite (read_store_listing _ _ _ orders) by done.
  rewrite write_store_ok by done. simpl. by rewrite <-app_assoc.
Qed.

(** C10. Whatever the body of a create-order request says about [orderId],
    [orderDate] and [status] is discarded: the record that is returned and
    stored carries the server's [orderId], the current time as [orderDate]
    and the status "pending"; it keeps every other property of the body, and
    two bodies that differ only in those three properties give the same
    record. *)
Theorem create_discards_client_stamps e body w orders :
  calm e → listing "data/orders.json" w = Some orders →
  let stamped := newOrder e body in
  (stamped !! "orderId" = Some (JStr ("ORD-" +:+ pretty (date_now e 0))) ∧
   stamped !! "orderDate" = Some (JStr (date_iso e)) ∧
   stamped !! "status" = Some (JStr "pending") ∧
   ∀ k, k ≠ "orderId" → k ≠ "orderDate" → k ≠ "status" →
        stamped !! k = body !! k) ∧
  (∀ body',
     (∀ k, k ≠ "orderId" → k ≠ "orderDate" → k ≠ "status" →
           body' !! k = body !! k) →
     newOrder e body' = stamped) ∧
  ∃ w', handle e (PostOrders body) w = (res_json (JObj stamped), w') ∧
        listing "data/orders.json" w' = Some (orders ++ [stamped]).
Proof.
  intros He Hl stamped. split; [apply newOrder_lookup|]. split.
  - intros body' Hb. apply map_eq. intros k. subst stamped. unfold newOrder.
    destruct (decide (k = "status")) as [->|]; [by rewrite !lookup_insert_eq|].
    rewrite !(lookup_insert_ne _ "status") by done.
    destruct (decide (k = "orderDate")) as [->|]; [by rewrite !lookup_insert_eq|].
    rewrite !(lookup_insert_ne _ "orderDate") by done.
    destruct (decide (k = "orderId")) as [->|]; [by rewrite !lookup_insert_eq|].
    rewrite !(lookup_insert_ne _ "orderId") by done. auto.
  - eexists. split; [by apply post_orders_ok|]. apply listing_insert.
Qed.

Lemma create_discards_client_stamps_witness :
  newOrder Sample.quiet Sample.ann !! "status" = Some (JStr "pending") ∧
  newOrder Sample.quiet Sample.ann !! "orderId" = Some (JStr "ORD-1700000000000").
Proof.
  pose proof (create_discards_client_stamps Sample.quiet Sample.ann Sample.ledger
                [Sample.placed]) as H.
  destruct H as [(Hid & _ & Hst & _) _]; [split; reflexivity | reflexivity |].
  split; [exact Hst | exact Hid].
Defined.

(** *** Admin login *)

(** C9. A login request succeeds, with the token, exactly when the submitted
    username and password are the strings "admin" and "xerox123"; every
    other pair is answered 401. The world is left as it was. *)
Theorem login_iff_hardcoded_pair e body w :
  let r := (handle e (PostAdminLogin body) w).1 in
  let matches :=
    body !! "username" = Some (JStr "admin") ∧
    body !! "password" = Some (JStr "xerox123") in
  (handle e (PostAdminLogin body) w).2 = w ∧
  (matches ↔
   r = res_json (JObj (obj [("success", JBool true); ("token", JStr "admin-token")]))) ∧
  (¬ matches ↔ r = res_error 401 "Invalid credentials").
Proof.
  simpl. unfold admin_login, res_json, res_error.
  assert (∀ v s, is_string v s = true ↔ v = Some (JStr s)) as Hs.
  { intros v s; destruct v as [[]|]; simpl; try (split; [done|by intros [=]]).
    rewrite bool_decide_eq_true. split; [by intros ->|by intros [= ->]]. }
  split; [done|].
  destruct (is_string (body !! "username") "admin") eqn:Hu;
    destruct (is_string (body !! "password") "xerox123") eqn:Hp; simpl.
  - apply Hs in Hu, Hp. split; [split; [done|by intros _; split]|].
    split; [intros H; destruct H; by split|].
    intros H%(f_equal res_status). simpl in H. lia.
  - assert (Hn : ¬ (body !! "password" = Some (JStr "xerox123")))
      by (intros Hp'%Hs; congruence).
    split; (split; [|try done]); try (intros [_ ?]; by destruct Hn).
    + intros _. reflexivity.
    + intros _ [_ ?]. by destruct Hn.
  - assert (Hn : ¬ (body !! "username" = Some (JStr "admin")))
      by (intros Hu'%Hs; congruence).
    split; (split; [|try done]); try (intros [? _]; by destruct Hn).
    + intros _. reflexivity.
    + intros _ [? _]. by destruct Hn.
  - assert (Hn : ¬ (body !! "username" = Some (JStr "admin")))
      by (intros Hu'%Hs; congruence).
    split; (split; [|try done]); try (intros [? _]; by destruct Hn).
    + intros _. reflexivity.
    + intros _ [? _]. by destruct Hn.
Qed.

(** *** Uploading no file *)

(** C4. An upload request that carries no file (a multipart request with an
    empty [files] field, or a request multer does not parse) is answered 400
    and changes nothing: neither the disk nor the trace, so no store is read
    or written, whatever the faults of the file system. *)
Theorem upload_nothing_bad_request e w :
  handle e (PostUpload (Some [])) w = (res_error 400 "No files uploaded", w) ∧
  handle e (PostUpload None) w = (res_error 400 "No files uploaded", w).
Proof. by destruct w. Qed.

(** *** Updating the status of an order *)

Lemma set_prop_lookup k v (o : gmap string json) :
  set_prop k v o !! k = v ∧ ∀ k', k' ≠ k → set_prop k v o !! k' = o !! k'.
Proof.
  destruct v as [x|]; simpl; split.
  - apply lookup_insert_eq.
  - intros k' ?. by apply lookup_insert_ne.
  - apply lookup_delete_eq.
  - intros k' ?. by apply lookup_delete_ne.
Qed.

Lemma put_order_unknown e orderId body w orders :
  read_fault e = None → listing "data/orders.json" w = Some orders →
  Forall (λ o, ¬ has_id orderId o) orders →
  handle e (PutOrder orderId body) w
  = (res_error 404 "Order not found", log (FsRead "data/orders.json") w).
Proof.
  intros Hr Hl Hno. simpl. unfold try_handler, put_order, readOrders.
  unfold mbind, io_bind. rewrite (read_store_listing _ _ _ orders) by done.
  apply (list_find_None (has_id orderId)) in Hno. by rewrite Hno.
Qed.

Lemma put_order_known e orderId body w orders i o :
  calm e → listing "data/orders.json" w = Some orders →
  list_find (has_id orderId) orders = Some (i, o) →
  let o' := set_prop "status" (body !! "status") o in
  handle e (PutOrder orderId body) w
  = (res_json (JObj o'),
     World (<["data/orders.json" := Rows (<[i := o']> orders)]> (disk w))
           (trace w ++ [FsRead "data/orders.json"; FsWrite "data/orders.json"])).
Proof.
  intros [Hr Hw] Hl Hfind o'. simpl.
  unfold try_handler, put_order, readOrders, writeOrders.
  unfold mbind, io_bind. rewrite (read_store_listing _ _ _ orders) by done.
  rewrite Hfind. rewrite write_store_ok by done. simpl.
  apply list_find_Some in Hfind as (Hi & _ & _).
  rewrite list_lookup_insert_eq by (by eapply lookup_lt_Some).
  simpl. by rewrite <-app_assoc.
Qed.

(** C3. An update-status request for an [orderId] that no stored record
    carries is answered 404, and the only thing the server did was to read
    the order store: the disk is as before and nothing was written.  For an
    [orderId] that some record carries, the first such record gets its
    [status] set to the one of the body and keeps its other properties, the
    other records stay as they are, the list is written back and the updated
    record is returned. *)
Theorem update_status_unknown_or_known e orderId body w orders :
  read_fault e = None → listing "data/orders.json" w = Some orders →
  let r := (handle e (PutOrder orderId body) w).1 in
  let w' := (handle e (PutOrder orderId body) w).2 in
  (Forall (λ o, ¬ has_id orderId o) orders →
     r = res_error 404 "Order not found" ∧
     disk w' = disk w ∧
     added w w' = [FsRead "data/orders.json"]) ∧
  (Exists (has_id orderId) orders → write_fault e = None →
     ∃ i o o',
       orders !! i = Some o ∧ has_id orderId o ∧
       o' !! "status" = body !! "status" ∧
       (∀ k, k ≠ "status" → o' !! k = o !! k) ∧
       r = res_json (JObj o') ∧
       listing "data/orders.json" w' = Some (<[i := o']> orders) ∧
       length (<[i := o']> orders) = length orders ∧
       (∀ j, j ≠ i → <[i := o']> orders !! j = orders !! j) ∧
       added w w' = [FsRead "data/orders.json"; FsWrite "data/orders.json"]).
Proof.
  intros Hr Hl r w'. split.
  - intros Hno. subst r w'. rewrite (put_order_unknown _ _ _ _ orders) by done.
    simpl. split; [done|]. split; [done|].
    unfold added. simpl. by rewrite drop_app_length.
  - intros Hex Hw.
    destruct (list_find (has_id orderId) orders) as [[i o]|] eqn:Hfind.
    2: { apply (list_find_None (has_id orderId)) in Hfind. apply Exists_exists in Hex as (o & Ho & Hid).
         by eapply Forall_forall in Hfind. }
    exists i, o, (set_prop "status" (body !! "status") o).
    subst r w'. rewrite (put_order_known _ _ _ _ orders i o) by done.
    apply list_find_Some in Hfind as (Hi & Hid & _).
    pose proof (set_prop_lookup "status" (body !! "status") o) as [Hs Hk].
    simpl. repeat split; try done.
    + apply listing_insert.
    + apply length_insert.
    + intros j ?. by apply list_lookup_insert_ne.
    + unfold added. simpl. by rewrite drop_app_length.
Qed.

Lemma update_status_unknown_or_known_witness :
  (handle Sample.quiet (PutOrder "ORD-1" Sample.ann) Sample.ledger).1
  = res_error 404 "Order not found" ∧
  disk (handle Sample.quiet (PutOrder "ORD-1" Sample.ann) Sample.ledger).2
  = disk Sample.ledger.
Proof.
  pose proof (update_status_unknown_or_known Sample.quiet "ORD-1" Sample.ann
                Sample.ledger [Sample.placed]) as H.
  destruct H as [H _]; [reflexivity | reflexivity |].
  destruct H as (Hr & Hd & _).
  - repeat constructor. intros Hid. exact Hid.
  - split; [exact Hr | exact Hd].
Defined.

(** *** Runs of create-order requests *)

Lemma serve_create_all steps w orders :
  Forall (λ s, calm s.1) steps →
  listing "data/orders.json" w = Some orders →
  (serve (create_all steps) w).1 = (res_json ∘ JObj) <$> created steps ∧
  listing "data/orders.json" (serve (create_all steps) w).2
  = Some (orders ++ created steps).
Proof.
  revert w orders. induction steps as [|[e body] steps IH]; intros w orders Hc Hl.
  - simpl. by rewrite app_nil_r.
  - apply Forall_cons in Hc as [He Hc]. simpl in He.
    change (create_all ((e, body) :: steps))
      with ((e, PostOrders body) :: create_all steps).
    cbn [serve]. rewrite (post_orders_ok _ _ _ orders) by done.
    match goal with |- context [serve _ ?w1] =>
      destruct (IH w1 (orders ++ [newOrder e body]) Hc (listing_insert _ _ _ _))
        as [IH1 IH2];
      destruct (serve (create_all steps) w1) as [rs w2] end.
    simpl in *. rewrite IH1, IH2. by rewrite <-app_assoc.
Qed.

Lemma stamp_inj e1 e2 : stamp e1 = stamp e2 → date_now e1 0 = date_now e2 0.
Proof. unfold stamp. intros H%(inj _). by apply (inj pretty). Qed.

Lemma created_lookup steps i r :
  created steps !! i = Some r →
  ∃ s, steps !! i = Some s ∧ r = newOrder s.1 s.2 ∧
       r !! "orderId" = Some (JStr (stamp s.1)).
Proof.
  unfold created. rewrite list_lookup_fmap.
  destruct (steps !! i) as [s|]; intros [= <-].
  exists s. repeat split. apply newOrder_lookup.
Qed.

(** C1, as it is worded, does not hold: two create-order requests served
    within the same millisecond get the same [orderId]. *)
Lemma create_ids_collide : ¬ create_ids_always_unique.
Proof.
  intros H.
  pose (steps := [(Sample.stuck, (∅ : gmap string json)); (Sample.stuck, ∅)]).
  assert (Forall (λ s : env * gmap string json, calm s.1) steps) as Hc
    by (repeat constructor).
  destruct (serve_create_all steps Sample.blank [] Hc eq_refl) as [_ Hl].
  specialize (H steps _ Hc Hl).
  by apply (H 0%nat 1%nat (newOrder Sample.stuck ∅) (newOrder Sample.stuck ∅)).
Qed.

(** C1, amended. Take a run of create-order requests served without
    storage failure, at clock readings that differ from each other and whose
    [orderId]s no stored order carries yet.  Every request returns the
    record it appended to the store; the record has the status "pending",
    and its [orderId] differs from the one of every other record of the
    store, older or created in the run. *)
Theorem create_ids_unique_at_distinct_times steps w orders :
  Forall (λ s, calm s.1) steps →
  listing "data/orders.json" w = Some orders →
  NoDup ((λ s, date_now s.1 0) <$> steps) →
  (∀ s o, s ∈ steps → o ∈ orders → ¬ has_id (stamp s.1) o) →
  (serve (create_all steps) w).1 = (res_json ∘ JObj) <$> created steps ∧
  listing "data/orders.json" (serve (create_all steps) w).2
  = Some (orders ++ created steps) ∧
  Forall (λ r, r !! "status" = Some (JStr "pending")) (created steps) ∧
  ∀ i j r r',
    created steps !! i = Some r → (orders ++ created steps) !! j = Some r' →
    j ≠ (length orders + i)%nat →
    r' !! "orderId" ≠ r !! "orderId".
Proof.
  intros Hc Hl Hnd Hfresh.
  destruct (serve_create_all steps w orders Hc Hl) as [H1 H2].
  split; [done|]. split; [done|]. split.
  - apply Forall_forall. intros r (s & -> & _)%list_elem_of_fmap.
    apply newOrder_lookup.
  - intros i j r r' (s & Hs & -> & Hid)%created_lookup Hj Hne.
    rewrite Hid. destruct (decide (j < length orders)%nat) as [Hlt|Hge].
    + rewrite lookup_app_l in Hj by done. intros Heq.
      apply (Hfresh s r'); [by eapply list_elem_of_lookup_2..|].
      unfold has_id. rewrite Heq. simpl. by rewrite bool_decide_eq_true_2.
    + rewrite lookup_app_r in Hj by lia.
      apply created_lookup in Hj as (s' & Hs' & -> & Hid').
      rewrite Hid'. intros Heq.
      assert (stamp s'.1 = stamp s.1) as Ht%stamp_inj by congruence.
      apply Hne.
      assert (i = (j - length orders)%nat); [|lia].
      eapply NoDup_lookup; [exact Hnd|..];
        rewrite list_lookup_fmap; [rewrite Hs|rewrite Hs']; simpl; by f_equal.
Qed.

Lemma create_ids_unique_at_distinct_times_witness :
  listing "data/orders.json"
    (serve (create_all [(Sample.later, Sample.ann); (Sample.evening, ∅)])
       Sample.ledger).2
  = Some ([Sample.placed]
          ++ created [(Sample.later, Sample.ann); (Sample.evening, ∅)]).
Proof.
  apply (create_ids_unique_at_distinct_times
           [(Sample.later, Sample.ann); (Sample.evening, ∅)]
           Sample.ledger [Sample.placed]).
  - repeat constructor.
  - reflexivity.
  - apply NoDup_cons. split; [|apply NoDup_singleton].
    intros Hin%list_elem_of_singleton. discriminate Hin.
  - intros s o Hs Ho. apply list_elem_of_singleton in Ho as ->.
    apply elem_of_cons in Hs as [->|Hs].
    + intros Hid. exact Hid.
    + apply list_elem_of_singleton in Hs as ->. intros Hid. exact Hid.
Defined.

(** *** Decimal numbers and dashes *)

Lemma string_app_cons a s t : String a s +:+ t = String a (s +:+ t).
Proof. reflexivity. Qed.

Lemma string_app_assoc s t u : (s +:+ t) +:+ u = s +:+ (t +:+ u).
Proof.
  induction s as [|a s IH]; [done|]. rewrite !string_app_cons. by f_equal.
Qed.

Lemma pretty_N_go_no_dash x s : no_dash s → no_dash (pretty_N_go x s).
Proof.
  revert s. induction (N.lt_wf_0 x) as [x _ IH]; intros s Hs.
  assert (x = 0 ∨ 0 < x)%N as [->|?] by lia.
  - by rewrite pretty_N_go_0.
  - rewrite pretty_N_go_step by done. apply IH.
    { by apply N.div_lt. }
    split; [|done]. unfold pretty_N_char. by repeat case_match.
Qed.

Lemma pretty_Z_no_dash z : 0 ≤ z → no_dash (pretty z).
Proof.
  destruct z as [|p|p]; [done| |lia]. intros _.
  unfold pretty, pretty_Z, pretty, pretty_positive, pretty, pretty_N.
  case_decide; [done|]. by apply pretty_N_go_no_dash.
Qed.

Lemma split_at_dash a b x y :
  no_dash a → no_dash b →
  a +:+ String "-" x = b +:+ String "-" y → a = b ∧ x = y.
Proof.
  revert b. induction a as [|c a IH]; intros [|d b] Ha Hb;
    rewrite ?string_app_cons; simpl in *.
  - by intros [= ->].
  - intros [= <- _]. by destruct Hb.
  - intros [= -> _]. by destruct Ha.
  - intros [= -> H]. destruct Ha, Hb. destruct (IH b) as [-> ->]; done.
Qed.

Lemma storage_filename_inj e k k' file file' :
  0 ≤ date_now e k → 0 ≤ date_now e k' →
  0 ≤ math_random_1e9 e k → 0 ≤ math_random_1e9 e k' →
  storage_filename e k file = storage_filename e k' file' →
  date_now e k = date_now e k' ∧
  math_random_1e9 e k = math_random_1e9 e k' ∧
  originalname file = originalname file'.
Proof.
  intros ???? Heq. unfold storage_filename in Heq. simpl in Heq.
  rewrite !string_app_assoc in Heq.
  apply split_at_dash in Heq as [Ht Heq]; [|by apply pretty_Z_no_dash..].
  apply split_at_dash in Heq as [Hr Heq]; [|by apply pretty_Z_no_dash..].
  split; [by apply (inj pretty)|]. split; [by apply (inj pretty)|done].
Qed.

(** *** Uploading files *)

Lemma multer_store_ok e k parts stored w :
  Forall (λ file, size file < fileSize_limit) parts →
  multer_store e k parts stored w
  = (inr (stored ++ name_all e k parts),
     World (store_blobs (name_all e k parts) (disk w))
           (trace w ++ (FsWrite ∘ path <$> name_all e k parts))).
Proof.
  revert k stored w. induction parts as [|file rest IH]; intros k stored w Hv.
  - simpl. rewrite !app_nil_r. by destruct w.
  - apply Forall_cons in Hv as [Hfile Hv]. cbn [multer_store name_all].
    unfold mbind at 1, io_bind at 1, store_blob.
    rewrite bool_decide_eq_false_2 by lia.
    rewrite IH by done. simpl. by rewrite <-!app_assoc.
Qed.

Lemma name_all_length e k parts : length (name_all e k parts) = length parts.
Proof. revert k. induction parts; intros k; simpl; by f_equal. Qed.

Lemma name_all_lookup e k parts i file :
  parts !! i = Some file →
  name_all e k parts !! i
  = Some (MulterFile file (storage_filename e (k + i) file)
            (storage_path (storage_filename e (k + i) file))).
Proof.
  revert k i. induction parts as [|p rest IH]; intros k [|i] Hi; simplify_eq/=.
  - by rewrite Nat.add_0_r.
  - rewrite (IH (S k) i) by done. by rewrite Nat.add_succ_r.
Qed.

Lemma store_blobs_stores e k parts d :
  store_blobs (name_all e k parts) d !! "data/files.json" = d !! "data/files.json".
Proof.
  revert k d. induction parts as [|p rest IH]; intros k d; [done|].
  cbn [name_all].
  change (store_blobs (?f :: ?fs) ?d) with (store_blobs fs (<[path f := Raw]> d)).
  rewrite IH. by apply lookup_insert_ne.
Qed.

Lemma post_upload_ok e parts w files :
  calm e → parts ≠ [] →
  Forall (λ file, size file < fileSize_limit) parts →
  listing "data/files.json" w = Some files →
  let stored := name_all e 0 parts in
  handle e (PostUpload (Some parts)) w
  = (res_json (rows_json (file_record <$> stored)),
     World (<["data/files.json" := Rows (files ++ (file_record <$> stored))]>
              (store_blobs stored (disk w)))
           (trace w ++ (FsWrite ∘ path <$> stored)
              ++ [FsRead "data/files.json"; FsWrite "data/files.json"])).
Proof.
  intros [Hr Hw] Hne Hv Hl. cbn zeta. cbn [handle]. unfold upload_array.
  unfold mbind, io_bind. rewrite multer_store_ok by done. cbn [app mret io_ret].
  assert (disk w !! "data/files.json"
          = store_blobs (name_all e 0 parts) (disk w) !! "data/files.json") as Hd
    by (by rewrite store_blobs_stores).
  remember (name_all e 0 parts) as stored eqn:Hst.
  destruct stored as [|f fs].
  { destruct parts; [done|discriminate]. }
  unfold try_handler, post_upload, readFiles, writeFiles, mbind, io_bind.
  rewrite (read_store_listing _ _ _ files); [|done|].
  2: { unfold listing in *. cbn [disk]. by rewrite <-Hd. }
  rewrite write_store_ok by done. simpl. by rewrite <-!app_assoc.
Qed.

Lemma get_files_ok e w files :
  read_fault e = None → listing "data/files.json" w = Some files →
  handle e GetFiles w
  = (res_json (rows_json files), log (FsRead "data/files.json") w).
Proof.
  intros Hr Hl. cbn [handle]. unfold try_handler, get_files, readFiles.
  unfold mbind, io_bind. by rewrite (read_store_listing _ _ _ files).
Qed.

Lemma file_record_lookup f :
  file_record f !! "name" = Some (JStr (originalname (part f))) ∧
  file_record f !! "size" = Some (JNum (size (part f))) ∧
  file_record f !! "type" = Some (JStr (mimetype (part f))) ∧
  file_record f !! "path" = Some (JStr ("/uploads/" +:+ filename f)) ∧
  file_record f !! "serverPath" = Some (JStr (path f)).
Proof. by repeat split. Qed.

(** C2, as it is worded, does not hold: two files of the same name stored
    at the same clock reading with the same random draw get the same path. *)
Lemma upload_paths_collide : ¬ upload_paths_always_distinct.
Proof.
  intros H.
  pose (parts := [Sample.report; Sample.report]).
  assert (calm Sample.stuck) as Hc by done.
  assert (Forall (λ file, size file < fileSize_limit) parts) as Hv
    by (repeat constructor; by vm_compute).
  pose proof (post_upload_ok Sample.stuck parts Sample.blank [] Hc
                ltac:(done) Hv eq_refl) as Hup.
  apply (f_equal fst) in Hup. apply H in Hup; [|done..].
  vm_compute in Hup. apply NoDup_cons in Hup as [Hin _].
  apply Hin. left.
Qed.

(** C2, amended. An upload of one or more files, each below the size limit,
    served without storage failure, appends one metadata record per file
    to the file store, in the order of the files, and returns these
    records; listing the files afterwards returns the older records followed
    by the new ones in that order.  The path of a record is the clock
    reading, the random number and the original name as multer reports it,
    joined by dashes.  Two files of the upload get distinct paths whenever
    they differ in the clock reading, in the random number or in the
    original name; nothing keeps the three from coinciding. *)
Theorem upload_appends_records_in_order e e' parts w files :
  calm e → read_fault e' = None → parts ≠ [] →
  Forall (λ file, size file < fileSize_limit) parts →
  listing "data/files.json" w = Some files →
  let records := file_record <$> name_all e 0 parts in
  let w' := (handle e (PostUpload (Some parts)) w).2 in
  (handle e (PostUpload (Some parts)) w).1 = res_json (rows_json records) ∧
  length records = length parts ∧
  listing "data/files.json" w' = Some (files ++ records) ∧
  (handle e' GetFiles w').1 = res_json (rows_json (files ++ records)) ∧
  (∀ k file, parts !! k = Some file →
     ∃ r, records !! k = Some r ∧
          r !! "name" = Some (JStr (originalname file)) ∧
          r !! "path"
          = Some (JStr ("/uploads/"
                        +:+ (pretty (date_now e k) +:+ "-"
                             +:+ pretty (math_random_1e9 e k))
                        +:+ "-" +:+ originalname file))) ∧
  (∀ i j fi fj,
     parts !! i = Some fi → parts !! j = Some fj →
     0 ≤ date_now e i → 0 ≤ date_now e j →
     0 ≤ math_random_1e9 e i → 0 ≤ math_random_1e9 e j →
     (date_now e i, math_random_1e9 e i, originalname fi)
     ≠ (date_now e j, math_random_1e9 e j, originalname fj) →
     paths records !! i ≠ paths records !! j).
Proof.
  intros Hc Hr' Hne Hv Hl records w'.
  pose proof (post_upload_ok e parts w files Hc Hne Hv Hl) as Hup.
  cbn zeta in Hup. fold records in Hup. subst w'. rewrite Hup. cbn [fst snd].
  assert (listing "data/files.json"
            (World (<["data/files.json" := Rows (files ++ records)]>
                      (store_blobs (name_all e 0 parts) (disk w)))
                   (trace w ++ (FsWrite ∘ path <$> name_all e 0 parts)
                      ++ [FsRead "data/files.json"; FsWrite "data/files.json"]))
          = Some (files ++ records)) as Hl' by apply listing_insert.
  split; [done|]. split.
  { subst records. by rewrite length_fmap, name_all_length. }
  split; [done|]. split.
  { by rewrite (get_files_ok _ _ (files ++ records)). }
  split.
  - intros k file Hk. exists (file_record (MulterFile file (storage_filename e k file)
                               (storage_path (storage_filename e k file)))).
    subst records. rewrite list_lookup_fmap, (name_all_lookup _ _ _ _ file) by done.
    by repeat split.
  - intros i j fi fj Hi Hj ???? Hdiff Heq. apply Hdiff.
    subst records. unfold paths in Heq.
    rewrite !list_lookup_fmap in Heq.
    rewrite (name_all_lookup _ _ _ _ fi), (name_all_lookup _ _ _ _ fj) in Heq by done.
    simpl in Heq. injection Heq as Heq.
    apply storage_filename_inj in Heq as (-> & -> & ->); done.
Qed.

Lemma upload_appends_records_in_order_witness :
  (handle Sample.quiet (PostUpload (Some [Sample.report; Sample.letter]))
     Sample.blank).1
  = res_json (rows_json (file_record
                <$> name_all Sample.quiet 0 [Sample.report; Sample.letter])).
Proof.
  apply (upload_appends_records_in_order Sample.quiet Sample.quiet
           [Sample.report; Sample.letter] Sample.blank []).
  - split; reflexivity.
  - reflexivity.
  - discriminate.
  - repeat constructor; by vm_compute.
  - reflexivity.
Defined.

(** *** Deleting all files *)

Lemma unlink_quietly_spec e file w :
  ∃ d evs,
    unlink_quietly e file w = (inr tt, World d (trace w ++ evs)) ∧
    (∀ q, d !! q = None ∨ d !! q = disk w !! q) ∧
    (∀ q, file !! "serverPath" ≠ Some (JStr q) → d !! q = disk w !! q) ∧
    (∀ p, file !! "serverPath" = Some (JStr p) → p ≠ "" →
       FsUnlink p ∈ evs ∧
       (unlink_fault e p = None → d !! p = None) ∧
       (∀ c, unlink_fault e p = Some c →
          ConsoleError "Error deleting file:" (Some (JStr p)) (FsError c) ∈ evs)) ∧
    Forall (λ ev, is_read_write ev = false) evs.
Proof.
  unfold unlink_quietly, try_catch.
  destruct (file !! "serverPath") as [v|] eqn:Hv.
  2: { exists (disk w), []. rewrite app_nil_r. destruct w. by split_and!; auto. }
  destruct (truthy v) eqn:Ht.
  2: { exists (disk w), []. rewrite app_nil_r. destruct w. simpl.
       split_and!; auto. intros p [= ->] Hp. simpl in Ht.
       by rewrite bool_decide_eq_false_2 in Ht. }
  assert (∀ err, ∃ d evs,
    emit (ConsoleError "Error deleting file:" (Some v) err) w
    = (inr (), World d (trace w ++ evs)) ∧
    (∀ q, d !! q = None ∨ d !! q = disk w !! q) ∧
    (∀ q, Some v ≠ Some (JStr q) → d !! q = disk w !! q) ∧
    ((∀ p, v ≠ JStr p) → ∀ p, Some v = Some (JStr p) → p ≠ "" →
       FsUnlink p ∈ evs ∧
       (unlink_fault e p = None → d !! p = None) ∧
       (∀ c, unlink_fault e p = Some c →
          ConsoleError "Error deleting file:" (Some (JStr p)) (FsError c) ∈ evs)) ∧
    Forall (λ ev, is_read_write ev = false) evs) as Hthrow.
  { intros err. exists (disk w), [ConsoleError "Error deleting file:" (Some v) err].
    split_and!; auto.
    intros Hv' p [= ->]. by destruct (Hv' p). }
  destruct v as [|b|n|p|items|fields];
    try (destruct (Hthrow TypeError) as (d & evs & ? & ? & ? & Hp & ?);
         exists d, evs; split_and!; auto; by apply Hp).
  clear Hthrow. unfold fs_unlink. cbn [log disk trace].
  destruct (unlink_fault e p) as [c|] eqn:Hf.
  { exists (disk w),
      [FsUnlink p; ConsoleError "Error deleting file:" (Some (JStr p)) (FsError c)].
    unfold emit, log. cbn [disk trace]. rewrite <-app_assoc.
    split_and!; auto; try (by repeat constructor).
    all: intros; simplify_eq; set_solver. }
  destruct (disk w !! p) as [n|] eqn:Hd.
  - exists (delete p (disk w)), [FsUnlink p].
    split_and!; auto; try (by repeat constructor).
    all: intros; simplify_eq; try set_solver.
    all: try (apply lookup_delete_eq).
    + destruct (decide (p = q)) as [->|]; [left; apply lookup_delete_eq|].
      right. by apply lookup_delete_ne.
    + apply lookup_delete_ne. congruence.
    + split_and!; [set_solver| |congruence]. intros _. apply lookup_delete_eq.
  - exists (disk w),
      [FsUnlink p; ConsoleError "Error deleting file:" (Some (JStr p)) (FsError "ENOENT")].
    unfold emit, log. cbn [disk trace]. rewrite <-app_assoc.
    split_and!; auto; try (by repeat constructor).
    all: intros; simplify_eq; try done; set_solver.
Qed.

Lemma delete_physical_spec e files w :
  ∃ d evs,
    delete_physical e files w = (inr tt, World d (trace w ++ evs)) ∧
    (∀ q, d !! q = None ∨ d !! q = disk w !! q) ∧
    (∀ q, (∀ file, file ∈ files → file !! "serverPath" ≠ Some (JStr q)) →
          d !! q = disk w !! q) ∧
    (∀ file p, file ∈ files → file !! "serverPath" = Some (JStr p) → p ≠ "" →
       FsUnlink p ∈ evs ∧
       (unlink_fault e p = None → d !! p = None) ∧
       (∀ c, unlink_fault e p = Some c →
          ConsoleError "Error deleting file:" (Some (JStr p)) (FsError c) ∈ evs)) ∧
    Forall (λ ev, is_read_write ev = false) evs.
Proof.
  revert w. induction files as [|file rest IH]; intros w.
  { exists (disk w), []. rewrite app_nil_r. destruct w. split_and!; auto.
    intros file p Hin. by apply elem_of_nil in Hin. }
  destruct (unlink_quietly_spec e file w) as (d1 & evs1 & Hrun1 & Hle1 & Hkeep1 & Hdel1 & Hrw1).
  destruct (IH (World d1 (trace w ++ evs1)))
    as (d2 & evs2 & Hrun2 & Hle2 & Hkeep2 & Hdel2 & Hrw2).
  cbn [disk trace] in *.
  exists d2, (evs1 ++ evs2). split_and!.
  - cbn [delete_physical]. unfold mbind, io_bind. rewrite Hrun1, Hrun2.
    by rewrite <-app_assoc.
  - intros q. destruct (Hle2 q) as [->| ->]; auto.
  - intros q Hq. rewrite Hkeep2, Hkeep1; [done|..].
    + apply Hq. left.
    + intros f Hf. apply Hq. by right.
  - intros f p Hin Hp Hne. apply elem_of_cons in Hin as [->|Hin].
    + destruct (Hdel1 p Hp Hne) as (Hev & Hgone & Hlog). split_and!.
      * apply elem_of_app. by left.
      * intros Hf. destruct (Hle2 p) as [->| ->]; auto.
      * intros c Hc. apply elem_of_app. left. by apply Hlog.
    + destruct (Hdel2 f p Hin Hp Hne) as (Hev & Hgone & Hlog). split_and!.
      * apply elem_of_app. by right.
      * done.
      * intros c Hc. apply elem_of_app. right. by apply Hlog.
  - by apply Forall_app.
Qed.

(** C5. A delete-all-files request served without failure of the metadata
    store attempts the deletion of the binary of every record that names
    one, whatever happens to the deletions before it; a deletion that the
    file system refuses is logged with the path and the error.  Afterwards
    the metadata store holds the empty list and the confirmation is
    returned, whichever deletions failed.  A binary whose deletion was not
    refused is gone, and files that no record names are left alone. *)
Theorem delete_files_best_effort e w files :
  calm e → listing "data/files.json" w = Some files →
  let r := (handle e DeleteFiles w).1 in
  let w' := (handle e DeleteFiles w).2 in
  r = res_json (JObj (obj [("message", JStr "All files deleted")])) ∧
  disk w' !! "data/files.json" = Some (Rows []) ∧
  (∀ file p, file ∈ files → file !! "serverPath" = Some (JStr p) → p ≠ "" →
     FsUnlink p ∈ added w w' ∧
     (∀ c, unlink_fault e p = Some c →
        ConsoleError "Error deleting file:" (Some (JStr p)) (FsError c)
        ∈ added w w') ∧
     (unlink_fault e p = None → p ≠ "data/files.json" → disk w' !! p = None)) ∧
  (∀ q, q ≠ "data/files.json" →
        (∀ file, file ∈ files → file !! "serverPath" ≠ Some (JStr q)) →
        disk w' !! q = disk w !! q).
Proof.
  intros [Hr Hw] Hl r w'.
  destruct (delete_physical_spec e files (log (FsRead "data/files.json") w))
    as (d & evs & Hrun & Hle & Hkeep & Hdel & Hrw).
  assert (handle e DeleteFiles w
          = (res_json (JObj (obj [("message", JStr "All files deleted")])),
             World (<["data/files.json" := Rows []]> d)
                   (trace w ++ [FsRead "data/files.json"] ++ evs
                      ++ [FsWrite "data/files.json"]))) as Hrun'.
  { cbn [handle].
    unfold try_handler, delete_files, readFiles, writeFiles, mbind, io_bind.
    rewrite (read_store_listing _ _ _ files) by done.
    rewrite Hrun, write_store_ok by done. cbn [disk trace log mret io_ret].
    by rewrite <-!app_assoc. }
  subst r w'. rewrite Hrun'. cbn [fst snd disk trace log] in *. rewrite added_app.
  split_and!; [done|apply lookup_insert_eq|..].
  - intros file p Hin Hp Hne. destruct (Hdel file p Hin Hp Hne) as (Hev & Hgone & Hlog).
    split_and!.
    + apply elem_of_cons. right. apply elem_of_app. by left.
    + intros c Hc. apply elem_of_cons. right. apply elem_of_app. left. by apply Hlog.
    + intros Hf Hq. rewrite lookup_insert_ne by done. auto.
  - intros q Hq Hfree. rewrite lookup_insert_ne by done. auto.
Qed.

Lemma delete_files_best_effort_witness :
  (handle Sample.stubborn DeleteFiles Sample.shelf).1
  = res_json (JObj (obj [("message", JStr "All files deleted")])) ∧
  disk (handle Sample.stubborn DeleteFiles Sample.shelf).2 !! "data/files.json"
  = Some (Rows []).
Proof.
  pose proof (delete_files_best_effort Sample.stubborn Sample.shelf
                [Sample.scan; Sample.memo]) as H.
  destruct H as (Hr & Hd & _); [split; reflexivity | reflexivity |].
  split; [exact Hr | exact Hd].
Defined.

(** *** Failures of the file system *)

Lemma try_handler_throws (body : io response) msg fail w err w' :
  body w = (inl err, w') →
  try_handler body msg fail w
  = (res_error 500 fail, log (ConsoleError msg None err) w').
Proof. intros H. unfold try_handler. by rewrite H. Qed.

Lemma bind_throws {A B} (m : io A) (k : A → io B) w err w' :
  m w = (inl err, w') → (m ≫= k) w = (inl err, w').
Proof. intros H. unfold mbind, io_bind. by rewrite H. Qed.

(** Every handler that reads a store starts by reading it. *)
Lemma handle_reads e req w path :
  read_path req = Some path →
  ∃ (k : list (gmap string json) → io response) msg,
    handle e req w
    = try_handler (read_store e path ≫= k) msg (failure req) (staged e req w).
Proof.
  destruct req as [|body|orderId body|orderId| |[parts|]| | |body];
    intros Hp; simplify_eq/=; try (by eexists _, _).
  case_bool_decide as Hparts; [|done]. destruct Hparts as [Hne Hv].
  simplify_eq. unfold mbind at 1, io_bind at 1.
  rewrite multer_store_ok by done. cbn [app mret io_ret].
  destruct (name_all e 0 parts) as [|f fs] eqn:Hst.
  { destruct parts; [done|discriminate]. }
  eexists _, _. unfold post_upload, readFiles. reflexivity.
Qed.

Lemma staged_path e req w path :
  read_path req = Some path → disk (staged e req w) !! path = disk w !! path.
Proof.
  destruct req as [| | | | |[parts|]| | |]; intros Hp; simplify_eq/=; try done.
  case_bool_decide; [|done]. simplify_eq. apply store_blobs_stores.
Qed.

Lemma touches_blob e k file path :
  path = "data/orders.json" ∨ path = "data/files.json" →
  touches path (FsWrite (storage_path (storage_filename e k file))) = false.
Proof. by intros [-> | ->]. Qed.

Lemma blob_writes_miss_stores e k parts p :
  p = "data/orders.json" ∨ p = "data/files.json" →
  filter (λ ev, touches p ev) (FsWrite ∘ path <$> name_all e k parts) = [].
Proof.
  intros Hp. revert k. induction parts as [|file rest IH]; intros k; [done|].
  cbn [name_all fmap list_fmap]. rewrite filter_cons_False; [apply IH|].
  cbn [compose path]. rewrite touches_blob by done. by intros [].
Qed.

Lemma accesses_staged e req w path evs d :
  read_path req = Some path →
  accesses path w (World d (trace (staged e req w) ++ evs))
  = filter (λ ev, touches path ev) evs.
Proof.
  intros Hp. unfold accesses.
  destruct req as [| | | | |[parts|]| | |]; simplify_eq/=;
    try (by rewrite added_app).
  case_bool_decide; [|done]. simplify_eq.
  rewrite <-app_assoc, added_app, filter_app.
  rewrite blob_writes_miss_stores; auto.
Qed.

Lemma touches_refl path : touches path (FsRead path) = true
                        ∧ touches path (FsWrite path) = true.
Proof. simpl. by rewrite String.eqb_refl. Qed.

Lemma read_failure_500 e req w path err :
  read_path req = Some path →
  read_store e path (staged e req w)
  = (inl err, log (FsRead path) (staged e req w)) →
  ∃ msg,
    handle e req w
    = (res_error 500 (failure req),
       log (ConsoleError msg None err) (log (FsRead path) (staged e req w))) ∧
    accesses path w (handle e req w).2 = [FsRead path].
Proof.
  intros Hp Hread. destruct (handle_reads e req w path Hp) as (k & msg & Hh).
  exists msg. rewrite Hh.
  rewrite (try_handler_throws _ _ _ _ err (log (FsRead path) (staged e req w)))
    by (by apply bind_throws).
  split; [done|]. unfold log. cbn [snd disk trace]. rewrite <-app_assoc.
  rewrite (accesses_staged e req) by done. cbn [app].
  rewrite filter_cons_True by (by destruct (touches_refl path) as [-> _]).
  by rewrite filter_cons_False by (by intros []).
Qed.

Lemma upload_staged e parts w :
  parts ≠ [] → Forall (λ file, size file < fileSize_limit) parts →
  handle e (PostUpload (Some parts)) w
  = try_handler (post_upload e (Some (name_all e 0 parts)))
      "Error uploading files:" "Failed to upload files"
      (staged e (PostUpload (Some parts)) w).
Proof.
  intros Hne Hv. cbn [handle staged]. unfold upload_array, mbind, io_bind.
  by rewrite multer_store_ok.
Qed.

Lemma missing_as_empty e req w path :
  read_path req = Some path → read_fault e = None → disk w !! path = None →
  (handle e req w).1
  = (handle e req (World (<[path := Rows []]> (disk w)) (trace w))).1.
Proof.
  intros Hp Hr Hd.
  assert (∀ w1, disk w1 !! path = disk w !! path ∨ disk w1 !! path = Some (Rows []) →
            read_store e path w1 = (inr [], log (FsRead path) w1)) as Hread.
  { intros w1 [Hw1|Hw1].
    - apply read_store_missing; [done|congruence].
    - by apply read_store_rows. }
  destruct req as [|body|orderId body|orderId| |[parts|]| | |body];
    cbn [read_path] in Hp; simplify_eq.
  5: { case_bool_decide as Hparts; [|done]. destruct Hparts as [Hne Hv].
       simplify_eq. rewrite !upload_staged by done. cbn [staged].
       destruct (name_all e 0 parts) as [|f fs] eqn:Hst.
       { destruct parts; [done|discriminate]. }
       unfold try_handler, post_upload, readFiles, writeFiles, mbind, io_bind.
       rewrite !Hread.
       - unfold fs_writeFile. by destruct (write_fault e) as [[c rem]|].
       - right. cbn [disk]. rewrite <-Hst, store_blobs_stores.
         apply lookup_insert_eq.
       - left. cbn [disk]. by rewrite <-Hst, store_blobs_stores. }
  all: cbn [handle].
  all: unfold try_handler, get_orders, post_orders, put_order, get_order,
         get_files, delete_files, readOrders, readFiles, writeOrders, writeFiles,
         mbind, io_bind.
  all: rewrite !Hread by (by (left + (right; apply lookup_insert_eq))).
  all: try done.
  all: cbn [delete_physical mret io_ret].
  all: unfold fs_writeFile; by destruct (write_fault e) as [[c rem]|].
Qed.

Lemma filter_touches_quiet path evs :
  Forall (λ ev, is_read_write ev = false) evs →
  filter (λ ev, touches path ev) evs = [].
Proof.
  induction 1 as [|ev evs Hev _ IH]; [done|].
  rewrite filter_cons_False; [done|]. destruct ev; simpl in *; try done; by intros [].
Qed.

Lemma accesses_read_write path w d msg err mid :
  Forall (λ ev, is_read_write ev = false) mid →
  accesses path w
    (World d (trace w ++ [FsRead path] ++ mid
                ++ [FsWrite path; ConsoleError msg None err]))
  = [FsRead path; FsWrite path].
Proof.
  intros Hmid. unfold accesses. rewrite added_app. cbn [app].
  destruct (touches_refl path) as [Hr Hw].
  rewrite filter_cons_True by (by rewrite Hr).
  rewrite filter_app, filter_touches_quiet by done. cbn [app].
  rewrite filter_cons_True by (by rewrite Hw).
  by rewrite filter_cons_False by (by intros []).
Qed.

Lemma write_failure_500 e req w path rows c rem :
  write_path req rows = Some path → write_fault e = Some (c, rem) →
  read_path req = None ∨ (read_fault e = None ∧ listing path w = Some rows) →
  (handle e req w).1 = res_error 500 (failure req) ∧
  accesses path w (handle e req w).2
  = match read_path req with
    | Some _ => [FsRead path; FsWrite path]
    | None => [FsWrite path]
    end.
Proof.
  intros Hp Hw Hread.
  destruct req as [|body|orderId body|orderId| |[parts|]| | |body];
    cbn [write_path read_path] in *; simplify_eq.
  - (* create *)
    destruct Hread as [|[Hr Hl]]; [done|]. cbn [handle].
    unfold try_handler, post_orders, readOrders, writeOrders, mbind, io_bind.
    rewrite (read_store_listing _ _ _ rows), (write_store_fault _ _ _ _ c rem) by done.
    split; [done|]. unfold log. cbn [snd disk trace]. rewrite <-!app_assoc.
    by apply (accesses_read_write _ _ _ _ _ []).
  - (* update *)
    case_bool_decide as Hex; [|done]. simplify_eq.
    destruct Hread as [|[Hr Hl]]; [done|]. cbn [handle].
    unfold try_handler, put_order, readOrders, writeOrders, mbind, io_bind.
    rewrite (read_store_listing _ _ _ rows) by done.
    destruct (list_find (has_id orderId) rows) as [[i o]|] eqn:Hfind.
    2: { apply (list_find_None (has_id orderId)) in Hfind.
         apply Exists_exists in Hex as (o & Ho & Hid).
         by eapply Forall_forall in Hfind. }
    rewrite (write_store_fault _ _ _ _ c rem) by done.
    split; [done|]. unfold log. cbn [snd disk trace]. rewrite <-!app_assoc.
    by apply (accesses_read_write _ _ _ _ _ []).
  - (* delete all orders *)
    cbn [handle]. unfold try_handler, delete_orders, writeOrders, mbind, io_bind.
    rewrite (write_store_fault _ _ _ _ c rem) by done.
    split; [done|]. unfold accesses, log. cbn [snd disk trace].
    rewrite <-!app_assoc, added_app. cbn [app].
    rewrite filter_cons_True by (by destruct (touches_refl "data/orders.json") as [_ ->]).
    by rewrite filter_cons_False by (by intros []).
  - (* upload *)
    case_bool_decide as Hparts; [|done]. destruct Hparts as [Hne Hv].
    simplify_eq. destruct Hread as [|[Hr Hl]]; [done|].
    rewrite upload_staged by done.
    destruct (name_all e 0 parts) as [|f fs] eqn:Hst.
    { destruct parts; [done|discriminate]. }
    unfold try_handler, post_upload, readFiles, writeFiles, mbind, io_bind.
    rewrite (read_store_listing _ _ _ rows); [|done|].
    2: { unfold listing in *.
         by rewrite (staged_path e (PostUpload (Some parts)))
           by (cbn [read_path]; by rewrite bool_decide_eq_true_2). }
    rewrite (write_store_fault _ _ _ _ c rem) by done.
    split; [done|]. unfold accesses, log, staged. cbn [snd disk trace].
    rewrite <-!app_assoc, added_app, filter_app, Hst.
    rewrite <-Hst, blob_writes_miss_stores by auto. cbn [app].
    rewrite !filter_cons_True
      by (destruct (touches_refl "data/files.json") as [Hr' Hw']; by rewrite ?Hr', ?Hw').
    by rewrite filter_cons_False by (by intros []).
  - (* delete all files *)
    destruct Hread as [|[Hr Hl]]; [done|]. cbn [handle].
    unfold try_handler, delete_files, readFiles, writeFiles, mbind, io_bind.
    rewrite (read_store_listing _ _ _ rows) by done.
    destruct (delete_physical_spec e rows (log (FsRead "data/files.json") w))
      as (d & evs & Hrun & _ & _ & _ & Hquiet).
    rewrite Hrun, (write_store_fault _ _ _ _ c rem) by done.
    split; [done|]. unfold log. cbn [snd disk trace]. rewrite <-!app_assoc.
    by apply accesses_read_write.
Qed.

(** C6. Take a request whose handler reads a store.  A store file that does
    not exist is read as the empty list, and the request is answered as if
    the store held the empty list.  Any other failure of the read (a
    rejection with another error code, or text that does not parse) and any
    failure of the write that follows reach the [catch] of the handler: the
    error is logged and the response is the 500 of the route.  Nothing is
    retried: the store was read once and, for a failed write, written
    once.  The same holds for a handler that only writes. *)
Theorem store_failures e req w :
  (∀ path, read_path req = Some path →
     (read_fault e = None → disk w !! path = None →
        read_store e path w = (inr [], log (FsRead path) w) ∧
        (handle e req w).1
        = (handle e req (World (<[path := Rows []]> (disk w)) (trace w))).1) ∧
     (read_fault e = Some "ENOENT" →
        read_store e path w = (inr [], log (FsRead path) w)) ∧
     (∀ c, read_fault e = Some c → c ≠ "ENOENT" →
        (∃ msg,
           handle e req w
           = (res_error 500 (failure req),
              log (ConsoleError msg None (FsError c))
                  (log (FsRead path) (staged e req w)))) ∧
        accesses path w (handle e req w).2 = [FsRead path]) ∧
     (read_fault e = None → disk w !! path = Some Raw →
        (∃ msg,
           handle e req w
           = (res_error 500 (failure req),
              log (ConsoleError msg None SyntaxError)
                  (log (FsRead path) (staged e req w)))) ∧
        accesses path w (handle e req w).2 = [FsRead path])) ∧
  (∀ path rows c remains,
     write_path req rows = Some path →
     read_path req = None ∨ (read_fault e = None ∧ listing path w = Some rows) →
     write_fault e = Some (c, remains) →
     (handle e req w).1 = res_error 500 (failure req) ∧
     accesses path w (handle e req w).2
     = match read_path req with
       | Some _ => [FsRead path; FsWrite path]
       | None => [FsWrite path]
       end).
Proof.
  split.
  - intros path Hp. split_and!.
    + intros Hr Hd. split; [by apply read_store_missing|by apply missing_as_empty].
    + apply read_store_enoent.
    + intros c Hr Hc.
      destruct (read_failure_500 e req w path (FsError c) Hp) as (msg & Hh & Hacc).
      { by apply read_store_fault. }
      split; [by exists msg|done].
    + intros Hr Hd.
      destruct (read_failure_500 e req w path SyntaxError Hp) as (msg & Hh & Hacc).
      { apply read_store_raw; [done|]. by rewrite staged_path. }
      split; [by exists msg|done].
  - intros path rows c remains Hp Hread Hw. by eapply write_failure_500.
Qed.

Lemma store_failures_witness :
  (handle Sample.unreadable GetOrders Sample.ledger).1
  = res_error 500 "Failed to read orders" ∧
  (handle Sample.unwritable (PostOrders Sample.ann) Sample.ledger).1
  = res_error 500 "Failed to create order".
Proof.
  split.
  - destruct (store_failures Sample.unreadable GetOrders Sample.ledger) as [H _].
    destruct (H "data/orders.json" eq_refl) as (_ & _ & H' & _).
    destruct (H' "EACCES" eq_refl) as [[msg Hh] _]; [discriminate|].
    by rewrite Hh.
  - destruct (store_failures Sample.unwritable (PostOrders Sample.ann) Sample.ledger)
      as [_ H].
    destruct (H "data/orders.json" [Sample.placed] "ENOSPC" None eq_refl) as [Hr _].
    + right. split; reflexivity.
    + reflexivity.
    + exact Hr.
Defined.

(** *** Counting pages in the upload widget *)

Import FileUploader.

Lemma count_pages_pdf_and_other random20 pdf doc P :
  type pdf = "application/pdf" → numPages pdf = Some P →
  type doc ≠ "application/pdf" →
  calculateTotalPages random20 [pdf; doc] = P + Z.max 1 (size doc `div` 50000) ∧
  calculateTotalPages random20 [doc; pdf] = P + Z.max 1 (size doc `div` 50000).
Proof.
  intros Hpdf HP Hdoc. unfold calculateTotalPages. cbn [count_pages].
  rewrite Hpdf, HP, bool_decide_eq_true_2, bool_decide_eq_false_2 by done.
  lia.
Qed.

(** C7. When the files the widget holds after an addition or a removal are
    a PDF that parses to [P] pages and a file of another type of [S] bytes,
    in either order, the page count it reports is
    [P + max 1 (S / 50000)], and the range it reports next is "1-" followed
    by that count when the count is positive and "all" otherwise. *)
Theorem page_count_pdf_and_other random20 st pdf doc P held :
  type pdf = "application/pdf" → numPages pdf = Some P →
  type doc ≠ "application/pdf" →
  held = [pdf; doc] ∨ held = [doc; pdf] →
  let total := P + Z.max 1 (size doc `div` 50000) in
  let reports :=
    [ FilesChange held;
      PageCountChange total;
      PageRangeChange (if bool_decide (0 < total)
                       then "1-" +:+ pretty total else "all") ] in
  (∀ newFiles,
     filter (λ f, isValidFileType f) newFiles ≠ [] →
     files st ++ filter (λ f, isValidFileType f) newFiles = held →
     handleFiles random20 st newFiles = (State held (selectedPages st), reports)) ∧
  (∀ index,
     remove_at index (files st) = held →
     removeFile random20 st index = (State held (selectedPages st), reports)).
Proof.
  intros Hpdf HP Hdoc Hheld total reports.
  assert (calculateTotalPages random20 held = total) as Htotal.
  { destruct (count_pages_pdf_and_other random20 pdf doc P) as [H1 H2]; try done.
    by destruct Hheld as [-> | ->]. }
  split.
  - intros newFiles Hne Hfiles. unfold handleFiles.
    rewrite bool_decide_eq_true_2.
    2: { destruct (filter _ newFiles); [done|simpl; lia]. }
    by rewrite Hfiles, Htotal.
  - intros index Hfiles. unfold removeFile. rewrite Hfiles.
    rewrite bool_decide_eq_false_2 by (by destruct Hheld as [-> | ->]).
    by rewrite Htotal.
Qed.

Lemma page_count_pdf_and_other_witness :
  handleFiles Sample.zeros initial [Sample.thesis; Sample.notes]
  = (State [Sample.thesis; Sample.notes] [],
     [ FilesChange [Sample.thesis; Sample.notes];
       PageCountChange 14;
       PageRangeChange "1-14" ]).
Proof.
  destruct (page_count_pdf_and_other Sample.zeros initial Sample.thesis
              Sample.notes 12 [Sample.thesis; Sample.notes]) as [H _].
  - reflexivity.
  - reflexivity.
  - discriminate.
  - by left.
  - apply (H [Sample.thesis; Sample.notes]).
    + discriminate.
    + reflexivity.
Defined.

(** *** Selecting pages in the preview *)

Lemma select_pages_snoc st clicks p :
  select_pages st (clicks ++ [p])
  = ((handlePageSelect (select_pages st clicks).1 p).1,
     (select_pages st clicks).2 ++ (handlePageSelect (select_pages st clicks).1 p).2).
Proof.
  revert st. induction clicks as [|q clicks IH]; intros st.
  - cbn [app select_pages fst snd]. destruct (handlePageSelect st p) as [st1 out1].
    cbn [fst snd app]. by rewrite app_nil_r.
  - cbn [app select_pages]. destruct (handlePageSelect st q) as [st1 out1].
    rewrite IH. destruct (select_pages st1 clicks) as [st2 out2].
    cbn [fst snd]. destruct (handlePageSelect st2 p) as [st3 out3].
    cbn [fst snd]. by rewrite app_assoc.
Qed.

Lemma handlePageSelect_selected st p :
  NoDup (selectedPages st) →
  let sel' := selectedPages (handlePageSelect st p).1 in
  NoDup sel' ∧
  (p ∈ sel' ↔ p ∉ selectedPages st) ∧
  (∀ q, q ≠ p → q ∈ sel' ↔ q ∈ selectedPages st).
Proof.
  intros Hnd. cbn. unfold set_delete, set_add, set_has.
  case_bool_decide as Hin.
  - split_and!.
    + by apply NoDup_filter.
    + rewrite list_elem_of_filter. split; [by intros [? _]|done].
    + intros q Hq. rewrite list_elem_of_filter. split; [by intros [_ ?]|done].
  - split_and!.
    + apply NoDup_app. split_and!; [done| |apply NoDup_singleton].
      intros x Hx ->%list_elem_of_singleton. done.
    + rewrite elem_of_app, list_elem_of_singleton. split; [done|by right].
    + intros q Hq. rewrite elem_of_app, list_elem_of_singleton.
      split; [by intros [|]|by left].
Qed.

Lemma handlePageSelect_reports st p :
  (handlePageSelect st p).2
  = [ PageRangeChange
        match selectedPages (handlePageSelect st p).1 with
        | [] => "all"
        | sel => join_pages (merge_sort Z.le sel)
        end ].
Proof.
  cbn. destruct (if set_has _ _ then _ else _) as [|x sel]; [done|].
  by rewrite bool_decide_eq_true_2 by (simpl; lia).
Qed.

Lemma selected_after_snoc clicks p q :
  selected_after (clicks ++ [p]) q
  ↔ if decide (q = p) then ¬ selected_after clicks q else selected_after clicks q.
Proof.
  unfold selected_after. rewrite filter_app, length_app.
  destruct (decide (q = p)) as [->|Hne].
  - rewrite filter_cons_True, filter_nil by done. cbn [length].
    rewrite Nat.add_1_r, Nat.odd_succ, <-Nat.negb_odd.
    by destruct (Nat.odd _).
  - rewrite filter_cons_False, filter_nil by congruence. cbn [length].
    by rewrite Nat.add_0_r.
Qed.

Lemma select_pages_selected clicks :
  let sel := selectedPages (select_pages initial clicks).1 in
  NoDup sel ∧ ∀ q, q ∈ sel ↔ selected_after clicks q.
Proof.
  induction clicks as [|p clicks [IHnd IH]] using rev_ind.
  - split; [apply NoDup_nil_2|]. intros q. cbn. unfold selected_after. cbn.
    split; [by intros ?%elem_of_nil|done].
  - rewrite select_pages_snoc. cbn [fst].
    destruct (handlePageSelect_selected (select_pages initial clicks).1 p IHnd)
      as (Hnd & Hp & Hq).
    split; [done|]. intros q. rewrite selected_after_snoc.
    destruct (decide (q = p)) as [->|Hne].
    + rewrite Hp. by rewrite IH.
    + by rewrite Hq, IH.
Qed.




(** ** Further properties of the server *)

(** *** Looking orders up *)

Lemma read_store_trace e path w :
  ∃ res, read_store e path w = (res, log (FsRead path) w).
Proof.
  destruct (read_fault e) as [c|] eqn:Hr.
  - destruct (decide (c = "ENOENT")) as [->|Hc].
    + eexists. by apply read_store_enoent.
    + eexists. by apply read_store_fault.
  - destruct (disk w !! path) as [[rows|]|] eqn:Hd.
    + eexists. by apply read_store_rows.
    + eexists. by apply read_store_raw.
    + eexists. by apply read_store_missing.
Qed.

Lemma get_order_run e orderId w orders :
  read_fault e = None → listing "data/orders.json" w = Some orders →
  handle e (GetOrder orderId) w
  = (match list_find (has_id orderId) orders with
     | Some (_, order) => res_json (JObj order)
     | None => res_error 404 "Order not found"
     end, log (FsRead "data/orders.json") w).
Proof.
  intros Hr Hl. cbn [handle]. unfold try_handler, get_order, readOrders.
  unfold mbind, io_bind. rewrite (read_store_listing _ _ _ orders) by done.
  by destruct (list_find (has_id orderId) orders) as [[i o]|].
Qed.

(** X1. Looking an order up by id answers 404 when no stored order carries
    the id, and otherwise the first stored order that carries it (later ones
    with the same id are never returned).  The lookup reads the store once
    and leaves the disk as it is. *)
Theorem get_order_first_match e orderId w orders :
  read_fault e = None → listing "data/orders.json" w = Some orders →
  (handle e (GetOrder orderId) w).2 = log (FsRead "data/orders.json") w ∧
  (Forall (λ o, ¬ has_id orderId o) orders →
     (handle e (GetOrder orderId) w).1 = res_error 404 "Order not found") ∧
  (∀ i o,
     orders !! i = Some o → has_id orderId o →
     (∀ j o', orders !! j = Some o' → (j < i)%nat → ¬ has_id orderId o') →
     (handle e (GetOrder orderId) w).1 = res_json (JObj o)).
Proof.
  intros Hr Hl. rewrite (get_order_run _ _ _ orders) by done. cbn [fst snd].
  split_and!; [done|..].
  - intros Hno. apply (list_find_None (has_id orderId)) in Hno. by rewrite Hno.
  - intros i o Hi Hid Hfirst.
    assert (list_find (has_id orderId) orders = Some (i, o)) as ->; [|done].
    by apply list_find_Some.
Qed.

Lemma get_order_first_match_witness :
  (handle Sample.quiet (GetOrder "ORD-1700000000000") Sample.ledger).1
  = res_json (JObj Sample.placed).
Proof.
  destruct (get_order_first_match Sample.quiet "ORD-1700000000000" Sample.ledger
              [Sample.placed]) as (_ & _ & H); [reflexivity..|].
  apply (H 0%nat Sample.placed).
  - reflexivity.
  - exact I.
  - intros j o' _ Hj. lia.
Defined.

Lemma read_only_frame e req w :
  read_only req = true →
  disk (handle e req w).2 = disk w ∧
  Forall (λ ev, match ev with FsWrite _ | FsUnlink _ => False | _ => True end)
         (added w (handle e req w).2).
Proof.
  destruct req as [| | |orderId| | | | |body]; intros Hro; try done.
  4: { cbn. split; [done|]. unfold added. rewrite drop_all. constructor. }
  all: cbn [handle];
    unfold try_handler, get_orders, get_order, get_files, readOrders, readFiles,
      mbind, io_bind;
    match goal with |- context [read_store ?e' ?p ?w'] =>
      destruct (read_store_trace e' p w') as [[err|rows] ->] end.
  all: try destruct (list_find _ _) as [[i o]|].
  all: cbn; split; [done|]; unfold added; cbn;
    rewrite <-?app_assoc, drop_app_length; by repeat constructor.
Qed.

(** X2. The routes that only look (listing the orders, looking one up,
    listing the files, logging in) leave the disk exactly as it is, whatever
    the store holds and whatever the file system answers; all they add to
    the trace is at most one read and the log line of a failure. *)
Theorem read_only_routes_keep_disk e req w :
  read_only req = true →
  disk (handle e req w).2 = disk w ∧
  Forall (λ ev, match ev with FsWrite _ | FsUnlink _ => False | _ => True end)
         (added w (handle e req w).2).
Proof. apply read_only_frame. Qed.

Lemma read_only_routes_keep_disk_witness :
  disk (handle Sample.unreadable (GetOrder "ORD-1") Sample.ledger).2
  = disk Sample.ledger.
Proof.
  by apply (read_only_routes_keep_disk Sample.unreadable (GetOrder "ORD-1")
              Sample.ledger).
Defined.

(** *** Deleting all orders *)

Lemma get_orders_ok e w orders :
  read_fault e = None → listing "data/orders.json" w = Some orders →
  handle e GetOrders w
  = (res_json (rows_json orders), log (FsRead "data/orders.json") w).
Proof.
  intros Hr Hl. cbn [handle]. unfold try_handler, get_orders, readOrders.
  unfold mbind, io_bind. by rewrite (read_store_listing _ _ _ orders).
Qed.

(** X3. Deleting all orders never reads the store: when its write succeeds
    it is confirmed whatever the store held before, also text that does not
    parse or no file at all.  Afterwards the orders list as the empty array,
    and every other file of the disk (the file store and the uploads among
    them) is as before. *)
Theorem delete_orders_then_list e e' w :
  write_fault e = None → read_fault e' = None →
  let w1 := (handle e DeleteOrders w).2 in
  (handle e DeleteOrders w).1
  = res_json (JObj (obj [("message", JStr "All orders deleted")])) ∧
  added w w1 = [FsWrite "data/orders.json"] ∧
  (handle e' GetOrders w1).1 = res_json (JArr []) ∧
  (∀ q, q ≠ "data/orders.json" → disk w1 !! q = disk w !! q).
Proof.
  intros Hw Hr w1.
  assert (handle e DeleteOrders w
          = (res_json (JObj (obj [("message", JStr "All orders deleted")])),
             World (<["data/orders.json" := Rows []]> (disk w))
                   (trace w ++ [FsWrite "data/orders.json"]))) as Hrun.
  { cbn [handle]. unfold try_handler, delete_orders, writeOrders, mbind, io_bind.
    by rewrite write_store_ok. }
  subst w1. rewrite Hrun. cbn [fst snd]. split_and!.
  - done.
  - apply added_app.
  - by rewrite (get_orders_ok _ _ []) by (done || apply listing_insert).
  - intros q Hq. cbn. by rewrite lookup_insert_ne.
Qed.

Lemma delete_orders_then_list_witness :
  (handle Sample.quiet GetOrders (handle Sample.quiet DeleteOrders Sample.ledger).2).1
  = res_json (JArr []).
Proof.
  by apply (delete_orders_then_list Sample.quiet Sample.quiet Sample.ledger).
Defined.

(** *** Creating, then looking up or updating *)

Lemma has_id_newOrder e body : has_id (stamp e) (newOrder e body).
Proof.
  unfold has_id. destruct (newOrder_lookup e body) as [-> _]. cbn.
  by rewrite bool_decide_eq_true_2.
Qed.

Lemma has_id_status orderId v (o : gmap string json) :
  has_id orderId (set_prop "status" v o) ↔ has_id orderId o.
Proof.
  unfold has_id. destruct (set_prop_lookup "status" v o) as [_ Hk].
  by rewrite Hk.
Qed.

(** X4. An order created under an id that no stored order carries is found
    again: looking the returned [orderId] up right after the creation
    answers the very record that the creation returned. *)
Theorem create_then_get e e' body w orders :
  calm e → read_fault e' = None →
  listing "data/orders.json" w = Some orders →
  Forall (λ o, ¬ has_id (stamp e) o) orders →
  (handle e' (GetOrder (stamp e)) (handle e (PostOrders body) w).2).1
  = (handle e (PostOrders body) w).1.
Proof.
  intros He Hr Hl Hfresh. rewrite (post_orders_ok _ _ _ orders) by done.
  cbn [fst snd]. rewrite (get_order_run _ _ _ (orders ++ [newOrder e body]))
    by (done || apply listing_insert).
  cbn [fst].
  assert (list_find (has_id (stamp e)) (orders ++ [newOrder e body])
          = Some (length orders, newOrder e body)) as ->; [|done].
  apply list_find_Some. split_and!.
  - by rewrite lookup_app_r, Nat.sub_diag.
  - apply has_id_newOrder.
  - intros j o Hj Hlt. rewrite lookup_app_l in Hj by done.
    eapply Forall_forall in Hfresh; [done|]. by eapply list_elem_of_lookup_2.
Qed.

Lemma create_then_get_witness :
  (handle Sample.quiet (GetOrder (stamp Sample.later))
     (handle Sample.later (PostOrders Sample.ann) Sample.ledger).2).1
  = (handle Sample.later (PostOrders Sample.ann) Sample.ledger).1.
Proof.
  apply (create_then_get Sample.later Sample.quiet Sample.ann Sample.ledger
           [Sample.placed]).
  - split; reflexivity.
  - reflexivity.
  - reflexivity.
  - repeat constructor. intros Hid. exact Hid.
Defined.

(** X5. When a stored order already carries the id that a creation hands
    out, the new order is appended all the same, but it cannot be reached by
    its id.  Looking the id up answers the first older order that carries
    the id.  An update of the status under that id is answered with that
    older order under its new status, and the store afterwards lists the
    old orders with exactly that one replaced, followed by the new order
    as it was created, still "pending". *)
Theorem create_under_taken_id_is_shadowed e e' body body' w orders :
  calm e → calm e' →
  listing "data/orders.json" w = Some orders →
  Exists (has_id (stamp e)) orders →
  let w1 := (handle e (PostOrders body) w).2 in
  listing "data/orders.json" w1 = Some (orders ++ [newOrder e body]) ∧
  newOrder e body !! "status" = Some (JStr "pending") ∧
  ∃ i o,
    orders !! i = Some o ∧ has_id (stamp e) o ∧
    (∀ j o', orders !! j = Some o' → (j < i)%nat → ¬ has_id (stamp e) o') ∧
    (handle e' (GetOrder (stamp e)) w1).1 = res_json (JObj o) ∧
    (handle e' (PutOrder (stamp e) body') w1).1
    = res_json (JObj (set_prop "status" (body' !! "status") o)) ∧
    listing "data/orders.json" (handle e' (PutOrder (stamp e) body') w1).2
    = Some (<[i := set_prop "status" (body' !! "status") o]> orders
            ++ [newOrder e body]).
Proof.
  intros He [Hr' Hw'] Hl Hex w1. subst w1.
  rewrite (post_orders_ok _ _ _ orders) by done. cbn [snd].
  destruct (list_find (has_id (stamp e)) orders) as [[i o]|] eqn:Hfind.
  2: { apply (list_find_None (has_id (stamp e))) in Hfind.
       apply Exists_exists in Hex as (o & Ho & Hid).
       by eapply Forall_forall in Hfind. }
  pose proof (list_find_app_l _ _ [newOrder e body] _ _ Hfind) as Hfind'.
  apply list_find_Some in Hfind as (Hi & Hid & Hfirst).
  split; [apply listing_insert|]. split; [apply newOrder_lookup|].
  exists i, o. split_and!; [done..| | |].
  - rewrite (get_order_run _ _ _ (orders ++ [newOrder e body]))
      by (done || apply listing_insert).
    by rewrite Hfind'.
  - by rewrite (put_order_known _ _ _ _ (orders ++ [newOrder e body]) i o)
      by (done || apply listing_insert).
  - rewrite (put_order_known _ _ _ _ (orders ++ [newOrder e body]) i o)
      by (done || apply listing_insert).
    cbn [snd]. rewrite listing_insert. f_equal.
    apply insert_app_l. by eapply lookup_lt_Some.
Qed.

Lemma create_under_taken_id_is_shadowed_witness :
  ∃ i o,
    [Sample.placed] !! i = Some o ∧
    listing "data/orders.json"
      (handle Sample.quiet (PutOrder (stamp Sample.quiet) Sample.ann)
         (handle Sample.quiet (PostOrders Sample.ann) Sample.ledger).2).2
    = Some (<[i := set_prop "status" (Sample.ann !! "status") o]> [Sample.placed]
            ++ [newOrder Sample.quiet Sample.ann]).
Proof.
  destruct (create_under_taken_id_is_shadowed Sample.quiet Sample.quiet Sample.ann
              Sample.ann Sample.ledger [Sample.placed])
    as (_ & _ & i & o & Hi & _ & _ & _ & _ & Hl).
  - split; reflexivity.
  - split; reflexivity.
  - reflexivity.
  - constructor. exact I.
  - exists i, o. split; [exact Hi | exact Hl].
Defined.

(** X6. A successful update of a status is seen by the next lookup: looking
    the id up right after the update answers the record that the update
    returned. *)
Theorem update_then_get e e' orderId body w orders :
  calm e → read_fault e' = None →
  listing "data/orders.json" w = Some orders →
  Exists (has_id orderId) orders →
  (handle e' (GetOrder orderId) (handle e (PutOrder orderId body) w).2).1
  = (handle e (PutOrder orderId body) w).1.
Proof.
  intros He Hr Hl Hex.
  destruct (list_find (has_id orderId) orders) as [[i o]|] eqn:Hfind.
  2: { apply (list_find_None (has_id orderId)) in Hfind.
       apply Exists_exists in Hex as (o & Ho & Hid).
       by eapply Forall_forall in Hfind. }
  rewrite (put_order_known _ _ _ _ orders i o) by done. cbn [fst snd].
  rewrite (get_order_run _ _ _ (<[i := set_prop "status" (body !! "status") o]> orders))
    by (done || apply listing_insert).
  cbn [fst]. apply list_find_Some in Hfind as (Hi & Hid & Hfirst).
  assert (list_find (has_id orderId)
            (<[i := set_prop "status" (body !! "status") o]> orders)
          = Some (i, set_prop "status" (body !! "status") o)) as ->; [|done].
  apply list_find_Some. split_and!.
  - apply list_lookup_insert_eq. by eapply lookup_lt_Some.
  - by apply has_id_status.
  - intros j o' Hj Hlt. rewrite list_lookup_insert_ne in Hj by lia. eauto.
Qed.

Lemma update_then_get_witness :
  (handle Sample.quiet (GetOrder "ORD-1700000000000")
     (handle Sample.quiet (PutOrder "ORD-1700000000000" Sample.ann) Sample.ledger).2).1
  = (handle Sample.quiet (PutOrder "ORD-1700000000000" Sample.ann) Sample.ledger).1.
Proof.
  apply (update_then_get Sample.quiet Sample.quiet "ORD-1700000000000" Sample.ann
           Sample.ledger [Sample.placed]).
  - split; reflexivity.
  - reflexivity.
  - reflexivity.
  - constructor. exact I.
Defined.

(** *** What a route leaves alone *)

Lemma write_store_frame e path data w q :
  q ≠ path → disk (fs_writeFile e path data w).2 !! q = disk w !! q.
Proof.
  intros Hq. unfold fs_writeFile. destruct (write_fault e) as [[c remains]|]; cbn.
  - by rewrite lookup_partial_alter_ne.
  - by rewrite lookup_insert_ne.
Qed.

Lemma order_route_frame e req w q :
  order_route req = true → q ≠ "data/orders.json" →
  disk (handle e req w).2 !! q = disk w !! q.
Proof.
  intros Hroute Hq.
  destruct req as [|body|orderId body|orderId| | | | |]; try done.
  - by destruct (read_only_frame e GetOrders w eq_refl) as [-> _].
  - cbn [handle]. unfold try_handler, post_orders, readOrders, writeOrders,
      mbind, io_bind.
    destruct (read_store_trace e "data/orders.json" w) as [[err|rows] ->]; [done|].
    pose proof (write_store_frame e "data/orders.json"
                  (Rows (rows ++ [newOrder e body]))
                  (log (FsRead "data/orders.json") w) q Hq) as Hframe.
    destruct (fs_writeFile _ _ _ _) as [[err|[]] w2]; exact Hframe.
  - cbn [handle]. unfold try_handler, put_order, readOrders, writeOrders,
      mbind, io_bind.
    destruct (read_store_trace e "data/orders.json" w) as [[err|rows] ->]; [done|].
    destruct (list_find (has_id orderId) rows) as [[i o]|]; [|done].
    pose proof (write_store_frame e "data/orders.json"
                  (Rows (<[i := set_prop "status" (body !! "status") o]> rows))
                  (log (FsRead "data/orders.json") w) q Hq) as Hframe.
    destruct (fs_writeFile _ _ _ _) as [[err|[]] w2]; exact Hframe.
  - by destruct (read_only_frame e (GetOrder orderId) w eq_refl) as [-> _].
  - cbn [handle]. unfold try_handler, delete_orders, writeOrders, mbind, io_bind.
    pose proof (write_store_frame e "data/orders.json" (Rows []) w q Hq) as Hframe.
    destruct (fs_writeFile _ _ _ _) as [[err|[]] w2]; exact Hframe.
Qed.

(** X7. The routes of the orders API change nothing on the disk but the
    order store: the file store and every uploaded file are the same after
    the request as before, whether the request succeeds or fails. *)
Theorem order_routes_touch_orders_only e req w q :
  order_route req = true → q ≠ "data/orders.json" →
  disk (handle e req w).2 !! q = disk w !! q.
Proof. apply order_route_frame. Qed.

Lemma order_routes_touch_orders_only_witness :
  disk (handle Sample.unwritable (PostOrders Sample.ann) Sample.shelf).2
    !! "data/files.json"
  = disk Sample.shelf !! "data/files.json".
Proof.
  by apply (order_routes_touch_orders_only Sample.unwritable
              (PostOrders Sample.ann) Sample.shelf "data/files.json").
Defined.

(** *** Uploads and the stores *)

Lemma storage_path_not_store x :
  storage_path x ≠ "data/orders.json" ∧ storage_path x ≠ "data/files.json".
Proof.
  unfold storage_path. rewrite string_app_cons. by split.
Qed.

Lemma remove_uploaded_frame stored (d : gmap string node) q :
  Forall (λ f, path f ≠ q) stored →
  foldr (λ f d, delete (path f) d) d stored !! q = d !! q.
Proof.
  induction 1 as [|f stored Hf _ IH]; [done|]. cbn [foldr].
  by rewrite lookup_delete_ne.
Qed.

Lemma name_all_not_store e k parts q :
  q = "data/orders.json" ∨ q = "data/files.json" →
  Forall (λ f, path f ≠ q) (name_all e k parts).
Proof.
  intros Hq. revert k. induction parts as [|file rest IH]; intros k; [constructor|].
  cbn [name_all]. constructor; [|apply IH]. cbn [path].
  destruct (storage_path_not_store (storage_filename e k file)).
  by destruct Hq as [-> | ->].
Qed.

Lemma unlinks_touch_nothing stored q :
  filter (λ ev, touches q ev) (FsUnlink ∘ path <$> stored) = [].
Proof.
  induction stored as [|f stored IH]; [done|].
  cbn [fmap list_fmap]. by rewrite filter_cons_False by (by intros []).
Qed.

Lemma multer_store_frame e k parts stored w q :
  Forall (λ f, path f ≠ q) (stored ++ name_all e k parts) →
  ∃ res d evs,
    multer_store e k parts stored w = (res, World d (trace w ++ evs)) ∧
    d !! q = disk w !! q ∧
    filter (λ ev, touches q ev) evs = [].
Proof.
  revert k stored w.
  induction parts as [|file rest IH]; intros k stored w Hpaths.
  { exists (inr stored), (disk w), []. rewrite app_nil_r. by destruct w. }
  cbn [name_all] in Hpaths. rewrite cons_middle, app_assoc in Hpaths.
  assert (storage_path (storage_filename e k file) ≠ q) as Hq.
  { apply Forall_app in Hpaths as [Hpaths _].
    by apply Forall_app in Hpaths as [_ [Hq _]%Forall_cons]. }
  assert (touches q (FsWrite (storage_path (storage_filename e k file))) = false)
    as Htouch by (cbn; by apply String.eqb_neq).
  cbn [multer_store]. unfold mbind at 1, io_bind at 1, store_blob.
  case_bool_decide as Hsize.
  - unfold mbind, io_bind, remove_uploaded, throw. cbn [disk trace].
    eexists _, _, (_ :: _). split; [by rewrite <-app_assoc|]. split.
    + apply Forall_app in Hpaths as [Hpaths _].
      rewrite remove_uploaded_frame by done. by apply lookup_insert_ne.
    + rewrite filter_cons_False by (rewrite Htouch; by intros []).
      apply unlinks_touch_nothing.
  - match goal with |- context [multer_store e (S k) rest ?st ?w1] =>
      destruct (IH (S k) st w1 Hpaths) as (res & d & evs & -> & Hd & Hev) end.
    cbn [disk trace] in *.
    exists res, d, (FsWrite (storage_path (storage_filename e k file)) :: evs).
    split; [by rewrite <-app_assoc|]. split.
    + rewrite Hd. by apply lookup_insert_ne.
    + by rewrite filter_cons_False by (rewrite Htouch; by intros []).
Qed.

Lemma upload_frame e parts w q :
  q = "data/orders.json" ∨ q = "data/files.json" →
  ∃ res d evs,
    upload_array e parts w = (res, World d (trace w ++ evs)) ∧
    d !! q = disk w !! q ∧
    filter (λ ev, touches q ev) evs = [].
Proof.
  intros Hq. destruct parts as [parts|].
  2: { exists (inr None), (disk w), []. rewrite app_nil_r. by destruct w. }
  cbn [upload_array]. unfold mbind, io_bind.
  destruct (multer_store_frame e 0 parts [] w q) as (res & d & evs & -> & Hd & Hev).
  { by apply name_all_not_store. }
  destruct res as [err|stored]; by eexists _, d, evs.
Qed.

Lemma multer_store_oversize e k parts stored w :
  Exists (λ file, fileSize_limit ≤ Server.size file) parts →
  ∃ w', multer_store e k parts stored w = (inl (MulterError "LIMIT_FILE_SIZE"), w').
Proof.
  intros Hbig. revert k stored w.
  induction Hbig as [file rest Hbig|file rest _ IH]; intros k stored w.
  - cbn [multer_store]. unfold mbind at 1, io_bind at 1, store_blob.
    rewrite bool_decide_eq_true_2 by done.
    unfold mbind, io_bind, remove_uploaded, throw. by eexists.
  - cbn [multer_store]. unfold mbind at 1, io_bind at 1, store_blob.
    case_bool_decide.
    + unfold mbind, io_bind, remove_uploaded, throw. by eexists.
    + match goal with |- context [multer_store e (S k) rest ?st ?w1] =>
        destruct (IH (S k) st w1) as [w' ->] end.
      by eexists.
Qed.

(** X8. An upload in which some file reaches the limit of 50 MB never
    reaches the upload handler: the answer is the 500 of the error
    middleware, the failure is logged there, and neither the file store nor
    the order store is read or changed. *)
Theorem upload_over_limit_rejected e parts w q :
  Exists (λ file, fileSize_limit ≤ Server.size file) parts →
  q = "data/orders.json" ∨ q = "data/files.json" →
  (handle e (PostUpload (Some parts)) w).1
  = res_error 500 "Internal server error" ∧
  disk (handle e (PostUpload (Some parts)) w).2 !! q = disk w !! q ∧
  accesses q w (handle e (PostUpload (Some parts)) w).2 = [] ∧
  last (trace (handle e (PostUpload (Some parts)) w).2)
  = Some (ConsoleError "Server error:" None (MulterError "LIMIT_FILE_SIZE")).
Proof.
  intros Hbig Hq. cbn [handle].
  destruct (upload_frame e (Some parts) w q Hq) as (res & d & evs & Hrun & Hd & Hev).
  destruct (multer_store_oversize e 0 parts [] w Hbig) as [w' Hbig'].
  assert (res = inl (MulterError "LIMIT_FILE_SIZE")) as ->.
  { cbn [upload_array] in Hrun. unfold mbind, io_bind in Hrun.
    rewrite Hbig' in Hrun. congruence. }
  rewrite Hrun. unfold error_middleware, log. cbn [fst snd disk trace].
  split_and!; [done|done| |].
  - unfold accesses. rewrite <-app_assoc, added_app, filter_app, Hev. cbn [app].
    by rewrite filter_cons_False by (by intros []).
  - by rewrite last_snoc.
Qed.

Lemma upload_over_limit_rejected_witness :
  (handle Sample.quiet (PostUpload (Some [Sample.report; Sample.brim])) Sample.shelf).1
  = res_error 500 "Internal server error" ∧
  disk (handle Sample.quiet (PostUpload (Some [Sample.report; Sample.brim]))
          Sample.shelf).2 !! "data/files.json"
  = disk Sample.shelf !! "data/files.json".
Proof.
  destruct (upload_over_limit_rejected Sample.quiet [Sample.report; Sample.brim]
              Sample.shelf "data/files.json") as (Hr & Hd & _).
  - apply Exists_cons_tl, Exists_cons_hd. by vm_compute.
  - by right.
  - split; [exact Hr | exact Hd].
Defined.

Lemma post_upload_frame e req_files msg fail w q :
  q ≠ "data/files.json" →
  disk (try_handler (post_upload e req_files) msg fail w).2 !! q = disk w !! q.
Proof.
  intros Hq. unfold try_handler, post_upload.
  destruct req_files as [[|f fs]|]; try done.
  unfold readFiles, writeFiles, mbind, io_bind.
  destruct (read_store_trace e "data/files.json" w) as [[err|rows] ->]; [done|].
  match goal with |- context [fs_writeFile e ?p ?data ?w1] =>
    pose proof (write_store_frame e p data w1 q Hq) as Hframe;
    destruct (fs_writeFile e p data w1) as [[err|[]] w2] end; exact Hframe.
Qed.

Lemma upload_route_frame e parts w q :
  q ≠ "data/files.json" → q ∉ generated e parts →
  disk (handle e (PostUpload parts) w).2 !! q = disk w !! q.
Proof.
  intros Hq Hblob. cbn [handle].
  assert (∃ res w1, upload_array e parts w = (res, w1) ∧ disk w1 !! q = disk w !! q)
    as (res & w1 & -> & Hd).
  { destruct parts as [parts|]; [|by eexists _, _].
    cbn [upload_array]. unfold mbind, io_bind.
    destruct (multer_store_frame e 0 parts [] w q) as (res & d & evs & -> & Hd & _).
    { cbn [app]. apply Forall_forall. intros f Hf Heq. apply Hblob.
      rewrite <-Heq. cbn [generated]. by apply list_elem_of_fmap_2. }
    destruct res; by eexists _, _. }
  destruct res as [err|req_files]; [done|].
  by rewrite post_upload_frame.
Qed.

Lemma generated_not_store e parts q :
  q = "data/orders.json" ∨ q = "data/files.json" → q ∉ generated e parts.
Proof.
  intros Hq. destruct parts as [parts|]; [|apply not_elem_of_nil].
  cbn [generated]. intros (f & -> & Hf)%list_elem_of_fmap.
  pose proof (name_all_not_store e 0 parts _ Hq) as Hall.
  by eapply Forall_forall in Hall.
Qed.

(** X9. An upload changes the disk only at the file store and at the names
    that the storage generates for the files of this request: every other
    file, the order store and the binaries of earlier uploads among them,
    is the same after the request as before, whatever the files, the faults
    and the outcome.  The generated names all lie under [uploads/]. *)
Theorem upload_touches_uploads_and_files_only e parts w :
  (∀ q, q ≠ "data/files.json" → q ∉ generated e parts →
        disk (handle e (PostUpload parts) w).2 !! q = disk w !! q) ∧
  (∀ q, q ∈ generated e parts → ∃ x, q = "uploads/" +:+ x) ∧
  "data/orders.json" ∉ generated e parts.
Proof.
  split_and!.
  - intros q. apply upload_route_frame.
  - destruct parts as [parts|]; [|by intros q ?%elem_of_nil].
    cbn [generated]. intros q (f & -> & Hf)%list_elem_of_fmap.
    revert Hf. generalize 0%nat.
    induction parts as [|file rest IH]; intros k Hf; [by apply elem_of_nil in Hf|].
    cbn [name_all] in Hf. apply elem_of_cons in Hf as [->|Hf]; [by eexists|eauto].
  - apply generated_not_store. by left.
Qed.

Lemma upload_touches_uploads_and_files_only_witness :
  disk (handle Sample.quiet (PostUpload (Some [Sample.report])) Sample.shelf).2
    !! "uploads/1-2-scan.pdf"
  = disk Sample.shelf !! "uploads/1-2-scan.pdf".
Proof.
  destruct (upload_touches_uploads_and_files_only Sample.quiet (Some [Sample.report])
              Sample.shelf) as [H _].
  apply (H "uploads/1-2-scan.pdf").
  - discriminate.
  - intros Hin. apply list_elem_of_singleton in Hin. vm_compute in Hin.
    discriminate Hin.
Defined.

Lemma store_blobs_keeps stored (d : gmap string node) p :
  d !! p = Some Raw → store_blobs stored d !! p = Some Raw.
Proof.
  revert d. induction stored as [|f stored IH]; intros d Hd; [done|].
  change (store_blobs (f :: stored) d)
    with (store_blobs stored (<[path f := Raw]> d)).
  apply IH. destruct (decide (path f = p)) as [->|].
  - apply lookup_insert_eq.
  - by rewrite lookup_insert_ne.
Qed.

Lemma store_blobs_lookup stored (d : gmap string node) f :
  f ∈ stored → store_blobs stored d !! path f = Some Raw.
Proof.
  revert d. induction stored as [|g stored IH]; intros d Hf.
  { by apply elem_of_nil in Hf. }
  change (store_blobs (g :: stored) d)
    with (store_blobs stored (<[path g := Raw]> d)).
  apply elem_of_cons in Hf as [->|Hf]; [|by apply IH].
  apply store_blobs_keeps, lookup_insert_eq.
Qed.

(** X10. After a successful upload every new metadata record points at a
    file that is on the disk: its [serverPath] names a stored binary, and
    its public [path] is that [serverPath] behind a slash, which is where
    the static route serves the binary from. *)
Theorem upload_records_point_at_blobs e parts w files :
  calm e → parts ≠ [] →
  Forall (λ file, Server.size file < fileSize_limit) parts →
  listing "data/files.json" w = Some files →
  ∀ r, r ∈ file_record <$> name_all e 0 parts →
    ∃ p, r !! "serverPath" = Some (JStr p) ∧
         r !! "path" = Some (JStr ("/" +:+ p)) ∧
         disk (handle e (PostUpload (Some parts)) w).2 !! p = Some Raw.
Proof.
  intros He Hne Hv Hl r (f & -> & Hf)%list_elem_of_fmap.
  rewrite (post_upload_ok _ _ _ files) by done. cbn [snd disk].
  exists (path f). split; [done|].
  assert (∃ x, filename f = x ∧ path f = storage_path x) as (x & Hx & Hp).
  { clear -Hf. revert Hf. generalize 0%nat.
    induction parts as [|file rest IH]; intros k Hf; [by apply elem_of_nil in Hf|].
    cbn [name_all] in Hf. apply elem_of_cons in Hf as [->|Hf]; [by eexists|eauto]. }
  split.
  - cbn. by rewrite Hx, Hp.
  - rewrite lookup_insert_ne; [by apply store_blobs_lookup|].
    rewrite Hp. intros Heq. symmetry in Heq. by apply storage_path_not_store in Heq.
Qed.

Lemma upload_records_point_at_blobs_witness :
  ∃ p, file_record (MulterFile Sample.report
                      (storage_filename Sample.quiet 0 Sample.report)
                      (storage_path (storage_filename Sample.quiet 0 Sample.report)))
         !! "serverPath" = Some (JStr p) ∧
       disk (handle Sample.quiet (PostUpload (Some [Sample.report])) Sample.blank).2
         !! p = Some Raw.
Proof.
  destruct (upload_records_point_at_blobs Sample.quiet [Sample.report] Sample.blank []
    ltac:(split; reflexivity) ltac:(discriminate)
    ltac:(repeat constructor; by vm_compute) eq_refl
    (file_record (MulterFile Sample.report
                    (storage_filename Sample.quiet 0 Sample.report)
                    (storage_path (storage_filename Sample.quiet 0 Sample.report)))))
    as (p & Hs & _ & Hd).
  - apply list_elem_of_singleton. reflexivity.
  - exists p. split; [exact Hs | exact Hd].
Defined.

(** *** Uploading, then deleting all files *)

Lemma delete_files_run e w files :
  calm e → listing "data/files.json" w = Some files →
  ∃ d evs,
    handle e DeleteFiles w
    = (res_json (JObj (obj [("message", JStr "All files deleted")])),
       World (<["data/files.json" := Rows []]> d)
             (trace w ++ [FsRead "data/files.json"] ++ evs
                ++ [FsWrite "data/files.json"])) ∧
    (∀ q, d !! q = None ∨ d !! q = disk w !! q) ∧
    (∀ file p, file ∈ files → file !! "serverPath" = Some (JStr p) → p ≠ "" →
       unlink_fault e p = None → d !! p = None) ∧
    (Forall (λ file, file !! "serverPath" = None) files → evs = []).
Proof.
  intros [Hr Hw] Hl.
  destruct (delete_physical_spec e files (log (FsRead "data/files.json") w))
    as (d & evs & Hrun & Hle & _ & Hdel & _).
  exists d, evs. split_and!.
  - cbn [handle].
    unfold try_handler, delete_files, readFiles, writeFiles, mbind, io_bind.
    rewrite (read_store_listing _ _ _ files) by done.
    rewrite Hrun, write_store_ok by done. cbn [disk trace log mret io_ret].
    by rewrite <-!app_assoc.
  - done.
  - intros file p Hin Hp Hne Hf. by apply (Hdel file p).
  - intros Hnone. clear -Hrun Hnone.
    assert (delete_physical e files (log (FsRead "data/files.json") w)
            = (inr tt, log (FsRead "data/files.json") w)) as Hrun'.
    { generalize (log (FsRead "data/files.json") w). clear Hrun.
      induction Hnone as [|file rest Hfile _ IH]; intros w1; [done|].
      cbn [delete_physical]. unfold mbind, io_bind, unlink_quietly, try_catch.
      rewrite Hfile. cbn. apply IH. }
    rewrite Hrun' in Hrun. injection Hrun as _ Htr. cbn in Htr.
    destruct evs as [|ev evs]; [done|]. apply (f_equal length) in Htr.
    rewrite !length_app in Htr. cbn in Htr. lia.
Qed.

(** X11. Deleting all files after an upload, with no deletion refused,
    undoes the upload on the disk: the confirmation is returned, the file
    store lists nothing, and none of the binaries that the upload stored is
    left. *)
Theorem upload_then_delete_all e e' parts w files :
  calm e → calm e' → (∀ p, unlink_fault e' p = None) →
  parts ≠ [] → Forall (λ file, Server.size file < fileSize_limit) parts →
  listing "data/files.json" w = Some files →
  let w1 := (handle e (PostUpload (Some parts)) w).2 in
  let w2 := (handle e' DeleteFiles w1).2 in
  (handle e' DeleteFiles w1).1
  = res_json (JObj (obj [("message", JStr "All files deleted")])) ∧
  listing "data/files.json" w2 = Some [] ∧
  ∀ k file, parts !! k = Some file →
    disk w1 !! storage_path (storage_filename e k file) = Some Raw ∧
    disk w2 !! storage_path (storage_filename e k file) = None.
Proof.
  intros He He' Hunlink Hne Hv Hl w1 w2.
  assert (listing "data/files.json" w1
          = Some (files ++ (file_record <$> name_all e 0 parts))) as Hl1.
  { subst w1. rewrite (post_upload_ok _ _ _ files) by done. apply listing_insert. }
  destruct (delete_files_run e' w1 _ He' Hl1) as (d & evs & Hrun & Hle & Hdel & _).
  subst w2. rewrite Hrun. cbn [fst snd]. split_and!; [done|apply listing_insert|].
  intros k file Hk.
  pose proof (name_all_lookup e 0 _ _ _ Hk) as Hf. cbn [Nat.add] in Hf.
  apply list_elem_of_lookup_2 in Hf.
  assert (storage_path (storage_filename e k file) ≠ "data/files.json") as Hp
    by apply storage_path_not_store.
  split.
  - subst w1. rewrite (post_upload_ok _ _ _ files) by done. cbn [snd disk].
    rewrite lookup_insert_ne by done.
    exact (store_blobs_lookup _ _ _ Hf).
  - cbn [disk]. rewrite lookup_insert_ne by done.
    apply (Hdel (file_record (MulterFile file (storage_filename e k file)
                   (storage_path (storage_filename e k file))))).
    + apply elem_of_app. right. by apply list_elem_of_fmap_2.
    + done.
    + unfold storage_path. by rewrite string_app_cons.
    + apply Hunlink.
Qed.

Lemma upload_then_delete_all_witness :
  listing "data/files.json"
    (handle Sample.quiet DeleteFiles
       (handle Sample.quiet (PostUpload (Some [Sample.report; Sample.letter]))
          Sample.blank).2).2
  = Some [].
Proof.
  apply (upload_then_delete_all Sample.quiet Sample.quiet
           [Sample.report; Sample.letter] Sample.blank []).
  - split; reflexivity.
  - split; reflexivity.
  - reflexivity.
  - discriminate.
  - repeat constructor; by vm_compute.
  - reflexivity.
Defined.

(** *** Order ids over a whole run of requests *)

Lemma ids_unique_NoDup rows : ids_unique rows ↔ NoDup (order_ids rows).
Proof.
  unfold ids_unique, order_ids. rewrite NoDup_alt. split.
  - intros H i j x Hi Hj. rewrite list_lookup_fmap in Hi, Hj.
    destruct (rows !! i) as [r|] eqn:Hri; [|done].
    destruct (rows !! j) as [r'|] eqn:Hrj; [|done].
    destruct (decide (i = j)) as [|Hne]; [done|].
    destruct (H i j r r' Hri Hrj Hne). cbn in *. congruence.
  - intros H i j r r' Hi Hj Hne Heq. apply Hne.
    apply (H i j (r !! "orderId")); rewrite list_lookup_fmap.
    + by rewrite Hi.
    + rewrite Hj. cbn. by rewrite Heq.
Qed.

Lemma has_id_lookup orderId (o : gmap string json) :
  has_id orderId o ↔ o !! "orderId" = Some (JStr orderId).
Proof.
  unfold has_id. destruct (o !! "orderId") as [[]|]; cbn; try (split; [done|by intros [=]]).
  rewrite bool_decide_spec. split; [by intros ->|by intros [= ->]].
Qed.

Lemma delete_files_shrinks e w q :
  q ≠ "data/files.json" →
  disk (handle e DeleteFiles w).2 !! q = None ∨
  disk (handle e DeleteFiles w).2 !! q = disk w !! q.
Proof.
  intros Hq. cbn [handle].
  unfold try_handler, delete_files, readFiles, writeFiles, mbind, io_bind.
  destruct (read_store_trace e "data/files.json" w) as [[err|rows] ->]; [by right|].
  destruct (delete_physical_spec e rows (log (FsRead "data/files.json") w))
    as (d & evs & -> & Hle & _).
  match goal with |- context [fs_writeFile e ?p ?data ?w1] =>
    pose proof (write_store_frame e p data w1 q Hq) as Hframe;
    destruct (fs_writeFile e p data w1) as [[err|[]] w2] end.
  all: cbn in *; rewrite Hframe; apply Hle.
Qed.

(** What one request does to the order store when nothing fails. *)
Lemma orders_step e req w rows :
  calm e → listing "data/orders.json" w = Some rows →
  ∃ rows',
    listing "data/orders.json" (handle e req w).2 = Some rows' ∧
    (order_ids rows' = order_ids rows ∨ rows' = [] ∨
     ∃ body, req = PostOrders body ∧ rows' = rows ++ [newOrder e body]).
Proof.
  intros He Hl.
  assert (∀ w', disk w' !! "data/orders.json" = disk w !! "data/orders.json" →
            listing "data/orders.json" w' = Some rows) as Hsame.
  { intros w' Hd. unfold listing in *. by rewrite Hd. }
  destruct req as [|body|orderId body|orderId| |parts| | |body].
  - exists rows. split; [|by left]. apply Hsame.
    by destruct (read_only_frame e GetOrders w eq_refl) as [-> _].
  - exists (rows ++ [newOrder e body]). rewrite (post_orders_ok _ _ _ rows) by done.
    split; [apply listing_insert|]. right. right. by exists body.
  - destruct (list_find (has_id orderId) rows) as [[i o]|] eqn:Hfind.
    + exists (<[i := set_prop "status" (body !! "status") o]> rows).
      rewrite (put_order_known _ _ _ _ rows i o) by done.
      split; [apply listing_insert|]. left. unfold order_ids.
      rewrite list_fmap_insert. apply list_insert_id.
      apply list_find_Some in Hfind as (Hi & _ & _).
      rewrite list_lookup_fmap, Hi. cbn. f_equal.
      by destruct (set_prop_lookup "status" (body !! "status") o) as [_ ->].
    + exists rows. split; [|by left].
      apply (list_find_None (has_id orderId)) in Hfind.
      destruct He as [Hr _].
      rewrite (put_order_unknown _ _ _ _ rows) by done. by apply Hsame.
  - exists rows. split; [|by left]. apply Hsame.
    by destruct (read_only_frame e (GetOrder orderId) w eq_refl) as [-> _].
  - exists []. split; [|by right; left]. destruct He as [_ Hw].
    cbn [handle]. unfold try_handler, delete_orders, writeOrders, mbind, io_bind.
    rewrite write_store_ok by done. apply listing_insert.
  - exists rows. split; [|by left]. apply Hsame.
    apply upload_route_frame; [done|].
    apply generated_not_store. by left.
  - exists rows. split; [|by left]. apply Hsame.
    by destruct (read_only_frame e GetFiles w eq_refl) as [-> _].
  - destruct (delete_files_shrinks e w "data/orders.json") as [Hd|Hd]; [done|..].
    + exists []. split; [|by right; left]. unfold listing. by rewrite Hd.
    + exists rows. split; [|by left]. by apply Hsame.
  - exists rows. split; [|by left]. by apply Hsame.
Qed.

Lemma serve_cons e req rest w :
  (serve ((e, req) :: rest) w).2 = (serve rest (handle e req w).2).2 ∧
  (serve ((e, req) :: rest) w).1
  = (handle e req w).1 :: (serve rest (handle e req w).2).1.
Proof.
  cbn [serve]. destruct (handle e req w) as [r w1]. cbn [fst snd].
  by destruct (serve rest w1) as [rs w2].
Qed.

Lemma stamps_of_cons e req rest :
  stamps_of ((e, req) :: rest)
  = match req with
    | PostOrders _ => stamp e :: stamps_of rest
    | _ => stamps_of rest
    end.
Proof. by destruct req. Qed.

Lemma order_ids_stay_NoDup reqs w rows :
  Forall (λ s, calm s.1) reqs →
  listing "data/orders.json" w = Some rows →
  NoDup (order_ids rows) →
  NoDup (stamps_of reqs) →
  (∀ t, t ∈ stamps_of reqs → Some (JStr t) ∉ order_ids rows) →
  ∃ rows', listing "data/orders.json" (serve reqs w).2 = Some rows' ∧
           NoDup (order_ids rows').
Proof.
  revert w rows. induction reqs as [|[e req] rest IH]; intros w rows Hc Hl Hnd Hst Hfresh.
  { by exists rows. }
  apply Forall_cons in Hc as [He Hc]. cbn in He.
  destruct (serve_cons e req rest w) as [-> _].
  destruct (orders_step e req w rows He Hl) as (rows1 & Hl1 & Hstep).
  assert (NoDup (stamps_of rest) ∧ ∀ t, t ∈ stamps_of rest → t ∈ stamps_of ((e, req) :: rest))
    as [Hst' Hsub].
  { rewrite stamps_of_cons in *. destruct req; try done.
    apply NoDup_cons in Hst as [_ Hst]. split; [done|]. intros t Ht. by right. }
  destruct Hstep as [Hids|[->|(body & -> & ->)]].
  - apply (IH _ rows1); try done. { by rewrite Hids. }
    intros t Ht. rewrite Hids. auto.
  - apply (IH _ []); try done. { constructor. }
    intros t Ht. apply not_elem_of_nil.
  - rewrite stamps_of_cons in Hst, Hfresh. apply NoDup_cons in Hst as [Hnew _].
    assert (order_ids (rows ++ [newOrder e body])
            = order_ids rows ++ [Some (JStr (stamp e))]) as Hids.
    { unfold order_ids. rewrite fmap_app. cbn. f_equal.
      by destruct (newOrder_lookup e body) as [-> _]. }
    apply (IH _ (rows ++ [newOrder e body])); try done.
    + rewrite Hids. apply NoDup_app. split_and!; [done| |apply NoDup_singleton].
      intros x Hx ->%list_elem_of_singleton. revert Hx. apply Hfresh. by left.
    + intros t Ht. rewrite Hids. intros [Hin|Hin%list_elem_of_singleton]%elem_of_app.
      * revert Hin. apply Hfresh. by right.
      * injection Hin as ->. done.
Qed.

(** X12. Unique order ids are kept by the whole API.  Take a store whose
    orders carry distinct ids and any run of requests of any routes, served
    without storage failure, in which the creations hand out ids that differ
    from each other and from those stored.  After the run the order store
    still lists orders with distinct ids: updates, lookups, deletions,
    uploads and logins in between do not disturb it. *)
Theorem order_ids_stay_unique reqs w rows :
  Forall (λ s, calm s.1) reqs →
  listing "data/orders.json" w = Some rows →
  ids_unique rows →
  NoDup (stamps_of reqs) →
  (∀ t r, t ∈ stamps_of reqs → r ∈ rows → ¬ has_id t r) →
  ∃ rows', listing "data/orders.json" (serve reqs w).2 = Some rows' ∧
           ids_unique rows'.
Proof.
  intros Hc Hl Hu Hst Hfresh.
  destruct (order_ids_stay_NoDup reqs w rows) as (rows' & Hl' & Hnd); try done.
  - by apply ids_unique_NoDup.
  - intros t Ht (r & Hid & Hr)%list_elem_of_fmap.
    apply (Hfresh t r); [done..|]. by apply has_id_lookup.
  - exists rows'. split; [done|]. by apply ids_unique_NoDup.
Qed.

Lemma order_ids_stay_unique_witness :
  ∃ rows',
    listing "data/orders.json"
      (serve [ (Sample.later, PostOrders Sample.ann);
               (Sample.quiet, PutOrder "ORD-1700000000000" Sample.ann);
               (Sample.quiet, PostUpload (Some [Sample.report]));
               (Sample.evening, PostOrders ∅) ] Sample.ledger).2
    = Some rows' ∧ ids_unique rows'.
Proof.
  apply (order_ids_stay_unique _ Sample.ledger [Sample.placed]).
  - repeat constructor.
  - reflexivity.
  - intros i j r r' Hi Hj Hne. by destruct i as [|i], j as [|j].
  - cbn. apply NoDup_cons. split; [|apply NoDup_singleton].
    intros Hin%list_elem_of_singleton. discriminate Hin.
  - intros t r Ht Hr. apply list_elem_of_singleton in Hr as ->.
    cbn in Ht. apply elem_of_cons in Ht as [->|Ht].
    + intros Hid. exact Hid.
    + apply list_elem_of_singleton in Ht as ->. intros Hid. exact Hid.
Defined.

(** *** Listing after creating *)

(** X13. The list of orders is kept in the order of creation: after a run
    of creations served without storage failure, listing the orders
    answers the orders that were stored before, followed by the created
    ones in the order of the requests, each as it was returned to its
    creator. *)
Theorem list_orders_in_creation_order steps e w orders :
  Forall (λ s, calm s.1) steps → read_fault e = None →
  listing "data/orders.json" w = Some orders →
  (handle e GetOrders (serve (create_all steps) w).2).1
  = res_json (rows_json (orders ++ created steps)) ∧
  (res_json ∘ JObj) <$> created steps = (serve (create_all steps) w).1.
Proof.
  intros Hc Hr Hl. destruct (serve_create_all steps w orders Hc Hl) as [H1 H2].
  split; [|done]. by rewrite (get_orders_ok _ _ (orders ++ created steps)).
Qed.

Lemma list_orders_in_creation_order_witness :
  (handle Sample.quiet GetOrders
     (serve (create_all [(Sample.later, Sample.ann); (Sample.evening, ∅)])
        Sample.ledger).2).1
  = res_json (rows_json ([Sample.placed]
       ++ created [(Sample.later, Sample.ann); (Sample.evening, ∅)])).
Proof.
  apply (list_orders_in_creation_order
           [(Sample.later, Sample.ann); (Sample.evening, ∅)]
           Sample.quiet Sample.ledger [Sample.placed]).
  - repeat constructor.
  - reflexivity.
  - reflexivity.
Defined.

(** *** What deleting all files deletes *)

Lemma unlink_quietly_events e file w :
  ∃ d evs,
    unlink_quietly e file w = (inr tt, World d (trace w ++ evs)) ∧
    Forall (λ ev, match ev with
                  | FsUnlink p => file !! "serverPath" = Some (JStr p) ∧ p ≠ ""
                  | ConsoleError _ _ _ => True
                  | _ => False
                  end) evs.
Proof.
  unfold unlink_quietly, try_catch.
  destruct (file !! "serverPath") as [v|] eqn:Hv.
  2: { exists (disk w), []. rewrite app_nil_r. by destruct w. }
  destruct (truthy v) eqn:Ht.
  2: { exists (disk w), []. rewrite app_nil_r. by destruct w. }
  destruct v as [|b|n|p|items|fields];
    try (eexists (disk w), [_]; split; [done|by repeat constructor]).
  assert (p ≠ "") as Hp.
  { intros ->. cbn in Ht. by rewrite bool_decide_eq_true_2 in Ht. }
  unfold fs_unlink. cbn [log disk trace].
  destruct (unlink_fault e p) as [c|].
  { exists (disk w),
      [FsUnlink p; ConsoleError "Error deleting file:" (Some (JStr p)) (FsError c)].
    unfold emit, log. cbn [disk trace]. rewrite <-app_assoc.
    split; [done|]. by repeat constructor. }
  destruct (disk w !! p).
  - exists (delete p (disk w)), [FsUnlink p]. split; [done|]. by repeat constructor.
  - exists (disk w),
      [FsUnlink p; ConsoleError "Error deleting file:" (Some (JStr p)) (FsError "ENOENT")].
    unfold emit, log. cbn [disk trace]. rewrite <-app_assoc.
    split; [done|]. by repeat constructor.
Qed.

Lemma delete_physical_events e files w :
  ∃ d evs,
    delete_physical e files w = (inr tt, World d (trace w ++ evs)) ∧
    Forall (λ ev, match ev with
                  | FsUnlink p =>
                      ∃ file, file ∈ files ∧
                              file !! "serverPath" = Some (JStr p) ∧ p ≠ ""
                  | ConsoleError _ _ _ => True
                  | _ => False
                  end) evs.
Proof.
  revert w. induction files as [|file rest IH]; intros w.
  { exists (disk w), []. rewrite app_nil_r. by destruct w. }
  destruct (unlink_quietly_events e file w) as (d1 & evs1 & Hrun1 & Hev1).
  destruct (IH (World d1 (trace w ++ evs1))) as (d2 & evs2 & Hrun2 & Hev2).
  exists d2, (evs1 ++ evs2). split.
  - cbn [delete_physical]. unfold mbind, io_bind. rewrite Hrun1, Hrun2.
    cbn [trace]. by rewrite <-app_assoc.
  - apply Forall_app. split.
    + eapply Forall_impl; [exact Hev1|]. intros [] ?; try done.
      exists file. split; [by left|done].
    + eapply Forall_impl; [exact Hev2|]. intros [] ?; try done.
      destruct H as (f & Hf & ?). exists f. split; [by right|done].
Qed.

(** X14. Deleting all files only ever deletes what a metadata record names:
    every deletion attempted during the request is for the [serverPath] of
    some stored record, a non-empty string.  Records without a [serverPath],
    or with one that is empty or no string, cause no deletion; the only
    read and the only write of the request are those of the file store. *)
Theorem delete_files_unlinks_named_paths_only e w files :
  read_fault e = None → listing "data/files.json" w = Some files →
  Forall (λ ev, match ev with
                | FsUnlink p =>
                    ∃ file, file ∈ files ∧
                            file !! "serverPath" = Some (JStr p) ∧ p ≠ ""
                | FsRead p | FsWrite p => p = "data/files.json"
                | ConsoleError _ _ _ => True
                end) (added w (handle e DeleteFiles w).2).
Proof.
  intros Hr Hl. cbn [handle].
  unfold try_handler, delete_files, readFiles, writeFiles, mbind, io_bind.
  rewrite (read_store_listing _ _ _ files) by done.
  destruct (delete_physical_events e files (log (FsRead "data/files.json") w))
    as (d & evs & -> & Hev).
  assert (Forall (λ ev, match ev with
                | FsUnlink p =>
                    ∃ file, file ∈ files ∧
                            file !! "serverPath" = Some (JStr p) ∧ p ≠ ""
                | FsRead p | FsWrite p => p = "data/files.json"
                | ConsoleError _ _ _ => True
                end) evs) as Hev'.
  { eapply Forall_impl; [exact Hev|]. by intros []. }
  unfold fs_writeFile, log. cbn [disk trace].
  destruct (write_fault e) as [[c remains]|]; cbn [snd trace mret io_ret].
  all: rewrite <-!app_assoc, added_app.
  all: constructor; [done|]; apply Forall_app; split; [done|]; by repeat constructor.
Qed.

Lemma delete_files_unlinks_named_paths_only_witness :
  Forall (λ ev, match ev with
                | FsUnlink p =>
                    ∃ file, file ∈ [Sample.scan; Sample.memo] ∧
                            file !! "serverPath" = Some (JStr p) ∧ p ≠ ""
                | FsRead p | FsWrite p => p = "data/files.json"
                | ConsoleError _ _ _ => True
                end)
         (added Sample.shelf (handle Sample.stubborn DeleteFiles Sample.shelf).2).
Proof.
  apply (delete_files_unlinks_named_paths_only Sample.stubborn Sample.shelf
           [Sample.scan; Sample.memo]); reflexivity.
Defined.

(** ** Further properties of the upload widget *)

(** *** Which files are held *)


(** *** The page count in general *)

Lemma count_pages_sum random20 k l acc :
  count_pages random20 k l acc
  = acc + sum_Z (counted l)
        + sum_Z ((λ i, random20 i + 1) <$> seq k (length (guessed l))).
Proof.
  revert k acc. induction l as [|f l IH]; intros k acc; [cbn; lia|].
  cbn [count_pages]. unfold counted, guessed, pages_of in *.
  cbn [omap list_omap]. rewrite filter_cons.
  case_bool_decide as Hpdf.
  - destruct (numPages f) as [n|] eqn:Hn.
    + rewrite decide_False by done. rewrite IH. cbn [sum_Z foldr]. unfold sum_Z. lia.
    + rewrite decide_True by done. rewrite IH. cbn [length seq fmap list_fmap].
      cbn [sum_Z foldr]. unfold sum_Z. cbn [foldr]. lia.
  - rewrite decide_False by done. rewrite IH. cbn [sum_Z foldr]. unfold sum_Z. lia.
Qed.

(** X16. The page count of a held list is the sum of the counts read off
    the files (the pages of each PDF that parses, [max 1 (size / 50000)]
    for each file of another type) plus, for the PDFs that fail to parse,
    one more than the first, second, ... random draw, in the order of the
    failures.  A list without such a PDF has a count that does not depend
    on the random generator, and the count of two such lists put together
    is the sum of their counts. *)
Theorem page_count_formula random20 l :
  calculateTotalPages random20 l
  = sum_Z (counted l)
    + sum_Z ((λ i, random20 i + 1) <$> seq 0 (length (guessed l))) ∧
  (guessed l = [] →
     ∀ random20' l', guessed l' = [] →
       calculateTotalPages random20' l = calculateTotalPages random20 l ∧
       calculateTotalPages random20 (l ++ l')
       = calculateTotalPages random20 l + calculateTotalPages random20 l').
Proof.
  unfold calculateTotalPages. split; [by rewrite count_pages_sum|].
  intros Hl random20' l' Hl'. rewrite !count_pages_sum.
  unfold guessed, counted in *. rewrite filter_app, omap_app, Hl, Hl'. cbn.
  unfold sum_Z. rewrite foldr_app.
  assert (∀ a b, foldr Z.add a b = a + foldr Z.add 0 b) as Hfold.
  { intros a b. induction b as [|x b IH]; cbn; lia. }
  rewrite (Hfold (foldr _ _ _)). lia.
Qed.

Lemma page_count_formula_witness :
  calculateTotalPages Sample.zeros [Sample.thesis; Sample.torn; Sample.notes] = 15.
Proof.
  rewrite (proj1 (page_count_formula Sample.zeros
                    [Sample.thesis; Sample.torn; Sample.notes])).
  reflexivity.
Defined.


Lemma sum_Z_ge (l : list Z) :
  Forall (λ n, 1 ≤ n) l → Z.of_nat (length l) ≤ sum_Z l.
Proof.
  induction 1 as [|n l Hn _ IH]; [done|]. cbn [length sum_Z foldr].
  unfold sum_Z in IH. lia.
Qed.

Lemma counted_guessed_length l :
  (length (counted l) + length (guessed l))%nat = length l.
Proof.
  unfold counted, guessed. induction l as [|f l IH]; [done|].
  cbn [omap list_omap]. rewrite filter_cons.
  destruct (pages_of f) as [n|] eqn:Hf.
  - rewrite decide_False by done. cbn [length]. lia.
  - rewrite decide_True by done. cbn [length]. lia.
Qed.

(** X17. When every PDF that parses has at least one page and the random
    draws lie in 0..19, every held file counts for at least one page and a
    PDF that fails to parse for at most twenty: the count is at least the
    number of files.  Adding files then always reports the range
    "1-<count>"; the range "all" is never reported when a file was added. *)
Theorem page_count_at_least_one_per_file random20 st newFiles :
  (∀ i, 0 ≤ random20 i < 20) →
  Forall (λ f, ∀ n, numPages f = Some n → 1 ≤ n)
         (files st ++ filter (λ f, isValidFileType f) newFiles) →
  filter (λ f, isValidFileType f) newFiles ≠ [] →
  let held := files st ++ filter (λ f, isValidFileType f) newFiles in
  let total := calculateTotalPages random20 held in
  Z.of_nat (length held) ≤ total ∧
  total ≤ sum_Z (counted held) + 20 * Z.of_nat (length (guessed held)) ∧
  (handleFiles random20 st newFiles).2
  = [ FilesChange held; PageCountChange total;
      PageRangeChange ("1-" +:+ pretty total) ].
Proof.
  intros Hrnd Hpages Hne held total.
  assert (Forall (λ n, 1 ≤ n) (counted held)) as Hcounted.
  { apply Forall_forall. intros n Hn. unfold counted in Hn.
    apply list_elem_of_omap in Hn as (f & Hf & Hp).
    unfold pages_of in Hp. case_bool_decide.
    - eapply Forall_forall in Hpages; [|done]. eauto.
    - injection Hp as <-. lia. }
  assert (∀ k m,
    Z.of_nat m ≤ sum_Z ((λ i, random20 i + 1) <$> seq k m) ≤ 20 * Z.of_nat m)
    as Hguess.
  { intros k m. revert k. induction m as [|m IH]; intros k; [done|].
    cbn [seq fmap list_fmap sum_Z foldr]. specialize (IH (S k)).
    specialize (Hrnd k). unfold sum_Z in IH. lia. }
  assert (Z.of_nat (length held) ≤ total ≤
          sum_Z (counted held) + 20 * Z.of_nat (length (guessed held))) as Hbound.
  { subst total. unfold calculateTotalPages. rewrite count_pages_sum.
    pose proof (sum_Z_ge _ Hcounted). pose proof (Hguess 0%nat (length (guessed held))).
    pose proof (counted_guessed_length held). lia. }
  split; [lia|]. split; [lia|].
  unfold handleFiles. rewrite bool_decide_eq_true_2.
  2: { destruct (filter _ newFiles); [done|cbn; lia]. }
  cbn [snd]. fold held. fold total. unfold default_range.
  rewrite bool_decide_eq_true_2; [done|].
  assert (held ≠ []) as Hheld.
  { subst held. intros [_ ?]%app_eq_nil. done. }
  destruct held; [done|]. cbn [length] in Hbound. lia.
Qed.

Lemma page_count_at_least_one_per_file_witness :
  (handleFiles Sample.zeros initial [Sample.torn; Sample.photo; Sample.notes]).2
  = [ FilesChange [Sample.torn; Sample.notes]; PageCountChange 3;
      PageRangeChange "1-3" ].
Proof.
  destruct (page_count_at_least_one_per_file Sample.zeros initial
              [Sample.torn; Sample.photo; Sample.notes]) as (_ & _ & H).
  - intros i. unfold Sample.zeros. lia.
  - replace (filter (λ f, isValidFileType f) [Sample.torn; Sample.photo; Sample.notes])
      with [Sample.torn; Sample.notes] by reflexivity.
    repeat constructor; intros n Hn; discriminate Hn.
  - replace (filter (λ f, isValidFileType f) [Sample.torn; Sample.photo; Sample.notes])
      with [Sample.torn; Sample.notes] by reflexivity.
    discriminate.
  - exact H.
Defined.

(** *** Removing a file *)

Lemma remove_at_lookup (l : list file) index :
  (∀ j, (j < index)%nat → remove_at index l !! j = l !! j) ∧
  (∀ j, (index ≤ j)%nat → remove_at index l !! j = l !! S j).
Proof.
  unfold remove_at. split; intros j Hj.
  - destruct (decide (j < length l)%nat).
    + rewrite lookup_app_l by (rewrite length_take; lia).
      by rewrite lookup_take_lt.
    + rewrite (lookup_ge_None_2 l) by lia. apply lookup_ge_None_2.
      rewrite length_app, length_take, length_drop. lia.
  - destruct (decide (index ≤ length l)%nat).
    + rewrite lookup_app_r by (rewrite length_take; lia).
      rewrite length_take, lookup_drop. f_equal. lia.
    + rewrite (lookup_ge_None_2 l) by lia. apply lookup_ge_None_2.
      rewrite length_app, length_take, length_drop. lia.
Qed.

(** X18. Removing the file at an index keeps every other held file, in
    order: the files before the index stay where they are and those after
    it move up by one.  An index beyond the list removes nothing.  The
    page selection is not touched.  When the list becomes empty the widget
    reports no file, zero pages and the range "all". *)
Theorem removeFile_drops_one random20 st index :
  let st' := (removeFile random20 st index).1 in
  selectedPages st' = selectedPages st ∧
  (∀ j, (j < index)%nat → files st' !! j = files st !! j) ∧
  (∀ j, (index ≤ j)%nat → files st' !! j = files st !! S j) ∧
  ((length (files st) ≤ index)%nat → files st' = files st) ∧
  ((index < length (files st))%nat → S (length (files st')) = length (files st)) ∧
  (files st' = [] →
     (removeFile random20 st index).2
     = [FilesChange []; PageCountChange 0; PageRangeChange "all"]).
Proof.
  assert ((removeFile random20 st index).1
          = State (remove_at index (files st)) (selectedPages st)) as ->.
  { unfold removeFile. by case_bool_decide. }
  cbn [files selectedPages]. destruct (remove_at_lookup (files st) index) as [Hlt Hge].
  split_and!; try done.
  - intros Hlen. unfold remove_at. rewrite take_ge, drop_ge by lia. apply app_nil_r.
  - intros Hlen. unfold remove_at. rewrite length_app, length_take, length_drop. lia.
  - intros Hnil. unfold removeFile. rewrite Hnil. by rewrite bool_decide_eq_true_2.
Qed.

Lemma removeFile_drops_one_witness :
  (removeFile Sample.zeros (State [Sample.thesis] [2]) 0).2
  = [FilesChange []; PageCountChange 0; PageRangeChange "all"].
Proof.
  destruct (removeFile_drops_one Sample.zeros (State [Sample.thesis] [2]) 0)
    as (_ & _ & _ & _ & _ & H).
  apply H. reflexivity.
Defined.

(** X19. Adding one allowed file and then removing the last held file gives
    back the state from before: the same held files and the same page
    selection.  What the removal reports is the old list with its page
    count counted afresh, or zero pages and "all" when the old list was
    empty. *)
Theorem add_then_remove_restores random20 random20' st f :
  isValidFileType f →
  let st1 := (handleFiles random20 st [f]).1 in
  (removeFile random20' st1 (length (files st))).1 = st ∧
  (removeFile random20' st1 (length (files st))).2
  = FilesChange (files st)
    :: match files st with
       | [] => [PageCountChange 0; PageRangeChange "all"]
       | _ => [ PageCountChange (calculateTotalPages random20' (files st));
                PageRangeChange
                  (default_range (calculateTotalPages random20' (files st))) ]
       end.
Proof.
  intros Hok st1.
  assert (st1 = State (files st ++ [f]) (selectedPages st)) as ->.
  { subst st1. unfold handleFiles. rewrite filter_cons_True, filter_nil by done.
    by rewrite bool_decide_eq_true_2 by (cbn; lia). }
  assert (remove_at (length (files st)) (files st ++ [f]) = files st) as Hrm.
  { unfold remove_at. rewrite take_app_length.
    rewrite drop_ge by (rewrite length_app; cbn; lia). apply app_nil_r. }
  unfold removeFile. cbn [files selectedPages]. rewrite Hrm.
  destruct st as [held sel]. cbn [files selectedPages].
  destruct held as [|g held]; [done|].
  by rewrite bool_decide_eq_false_2.
Qed.

Lemma add_then_remove_restores_witness :
  (removeFile Sample.zeros
     (handleFiles Sample.zeros (State [Sample.thesis] [2]) [Sample.notes]).1 1).1
  = State [Sample.thesis] [2].
Proof.
  by apply (add_then_remove_restores Sample.zeros Sample.zeros
              (State [Sample.thesis] [2]) Sample.notes).
Defined.

(** *** The page selection *)

Lemma last_range_snoc clicks p :
  last_range (clicks ++ [p])
  = Some (PageRangeChange
            match selectedPages (select_pages initial (clicks ++ [p])).1 with
            | [] => "all"
            | sel => join_pages (merge_sort Z.le sel)
            end).
Proof.
  unfold last_range. rewrite select_pages_snoc. cbn [fst snd].
  by rewrite handlePageSelect_reports, last_snoc.
Qed.

(** X20. The range reported after a run of clicks depends only on which
    pages end up selected, not on the order of the clicks or on how often a
    page was clicked: two runs that leave the same pages selected report
    the same range at their last click. *)
Theorem page_range_ignores_click_order clicks1 clicks2 :
  clicks1 ≠ [] → clicks2 ≠ [] →
  (∀ p, selected_after clicks1 p ↔ selected_after clicks2 p) →
  last_range clicks1 = last_range clicks2.
Proof.
  intros H1 H2 Hsame.
  destruct (select_pages_selected clicks1) as [Hnd1 Hsel1].
  destruct (select_pages_selected clicks2) as [Hnd2 Hsel2].
  assert (selectedPages (select_pages initial clicks1).1
          ≡ₚ selectedPages (select_pages initial clicks2).1) as Hperm.
  { apply NoDup_Permutation; [done..|]. intros p. by rewrite Hsel1, Hsel2. }
  assert (merge_sort Z.le (selectedPages (select_pages initial clicks1).1)
          = merge_sort Z.le (selectedPages (select_pages initial clicks2).1)) as Hsort.
  { apply (Sorted_unique Z.le); [apply (Sorted_merge_sort _)..|].
    by rewrite !merge_sort_Permutation. }
  destruct (exists_last H1) as (l1 & p1 & ->), (exists_last H2) as (l2 & p2 & ->).
  rewrite !last_range_snoc. do 2 f_equal.
  destruct (selectedPages (select_pages initial (l1 ++ [p1])).1) as [|x1 s1] eqn:E1;
    destruct (selectedPages (select_pages initial (l2 ++ [p2])).1) as [|x2 s2] eqn:E2.
  - done.
  - by apply Permutation_nil_cons in Hperm.
  - symmetry in Hperm. by apply Permutation_nil_cons in Hperm.
  - by rewrite Hsort.
Qed.

Lemma page_range_ignores_click_order_witness :
  last_range [4; 2; 7; 7] = last_range [2; 2; 2; 4].
Proof.
  apply (page_range_ignores_click_order [4; 2; 7; 7] [2; 2; 2; 4]).
  - discriminate.
  - discriminate.
  - intros p. unfold selected_after.
    destruct (decide (p = 2)) as [->|]; [done|].
    destruct (decide (p = 4)) as [->|]; [done|].
    destruct (decide (p = 7)) as [->|]; [done|].
    by rewrite !filter_cons_False, !filter_nil by (intros ?; simplify_eq).
Defined.

(** ** Properties of the client *)

Lemma call_online e req message w :
  Client.call true e req message w
  = (if Client.ok (handle e req w).1
     then inr (res_body (handle e req w).1)
     else inl (Client.ApiError message),
     (handle e req w).2).
Proof. unfold Client.call. by destruct (handle e req w). Qed.

(** X21. The login wrapper resolves, with the token, exactly when the
    server is reached and the two strings are "admin" and "xerox123".  With
    any other pair it throws the error "Invalid credentials", and when the
    server is not reached it throws the rejection of [fetch].  The server
    is left as it was in every case. *)
Theorem client_login_outcomes online e username password w :
  let res := (Client.adminAPI_login online e username password w).1 in
  (Client.adminAPI_login online e username password w).2 = w ∧
  (online = true ∧ username = "admin" ∧ password = "xerox123" ↔
   res = inr (JObj (obj [("success", JBool true); ("token", JStr "admin-token")]))) ∧
  (online = true → ¬ (username = "admin" ∧ password = "xerox123") →
   res = inl (Client.ApiError "Invalid credentials")) ∧
  (online = false → res = inl Client.NetworkError).
Proof.
  unfold Client.adminAPI_login. destruct online.
  2: { cbn. split_and!; try done. split; [by intros [? _]|by intros [=]]. }
  rewrite call_online. cbn [handle fst snd]. unfold admin_login.
  assert (obj [("username", JStr username); ("password", JStr password)] !! "username"
          = Some (JStr username)) as -> by apply lookup_insert_eq.
  assert (obj [("username", JStr username); ("password", JStr password)] !! "password"
          = Some (JStr password)) as ->.
  { unfold obj. cbn. rewrite lookup_insert_ne by done. apply lookup_insert_eq. }
  cbn [is_string]. do 2 case_bool_decide; subst; cbn.
  all: split_and!; try done.
  all: try (split; [by intros (_ & ? & ?)|by intros [=]]).
  all: try (intros _ Hno; by destruct Hno).
Qed.

(** X22. The download button reports how many files the store lists: the
    notice "No files available to download" for an empty or missing store,
    and otherwise "Found N files. ..." with the number of metadata
    records.  When the server is not reached or cannot read the store, it
    logs and shows the error "Failed to fetch files". *)
Theorem download_reports_number_of_files online e w files :
  listing "data/files.json" w = Some files →
  (online = true → read_fault e = None →
     (Client.downloadAllFiles online e w).1
     = match files with
       | [] => [Client.ToastInfo "No files available to download"]
       | _ => [Client.ToastSuccess
                 ("Found " +:+ pretty (length files)
                  +:+ " files. Download them individually from the files list.")]
       end) ∧
  (online = false ∨ (∃ c, read_fault e = Some c ∧ c ≠ "ENOENT") →
     (Client.downloadAllFiles online e w).1
     = [Client.LogError "Error fetching files:";
        Client.ToastError "Failed to fetch files"]).
Proof.
  intros Hl. unfold Client.downloadAllFiles, Client.fileAPI_getAll. split.
  - intros -> Hr. rewrite call_online, (get_files_ok _ _ files) by done.
    cbn [fst snd]. change (Client.ok (res_json (rows_json files))) with true.
    cbn [res_json res_body rows_json]. rewrite length_fmap. by destruct files.
  - intros [->|(c & Hr & Hc)]; [done|]. destruct online; [|done].
    rewrite call_online.
    destruct (read_failure_500 e GetFiles w "data/files.json" (FsError c) eq_refl)
      as (msg & -> & _); [by apply read_store_fault|]. done.
Qed.

Lemma download_reports_number_of_files_witness :
  (Client.downloadAllFiles true Sample.quiet Sample.shelf).1
  = [Client.ToastSuccess
       "Found 2 files. Download them individually from the files list."].
Proof.
  destruct (download_reports_number_of_files true Sample.quiet Sample.shelf
              [Sample.scan; Sample.memo] eq_refl) as [H _].
  exact (H eq_refl eq_refl).
Defined.

(** X23. Clearing the files from the admin page succeeds even when the file
    system refuses to delete some or all of the binaries: the dialog is
    closed, the success notice is shown, and the download button then
    reports that no files are available. *)
Theorem clear_files_then_download e e' st w files :
  calm e → read_fault e' = None →
  listing "data/files.json" w = Some files →
  (Client.clearAllFiles true e st w).1.1
  = Client.Admin (Client.isLoggedIn st) false (Client.showClearOrdersDialog st) ∧
  (Client.clearAllFiles true e st w).1.2
  = [Client.ToastSuccess "All uploaded files have been cleared"] ∧
  (Client.downloadAllFiles true e' (Client.clearAllFiles true e st w).2).1
  = [Client.ToastInfo "No files available to download"].
Proof.
  intros He Hr Hl. unfold Client.clearAllFiles, Client.fileAPI_deleteAll.
  rewrite call_online.
  destruct (delete_files_run e w files He Hl) as (d & evs & -> & _).
  cbn [fst snd]. split_and!; [done..|].
  unfold Client.downloadAllFiles, Client.fileAPI_getAll. rewrite call_online.
  by rewrite (get_files_ok _ _ []) by (done || apply listing_insert).
Qed.

Lemma clear_files_then_download_witness :
  (Client.downloadAllFiles true Sample.quiet
     (Client.clearAllFiles true Sample.stubborn
        (Client.Admin true true false) Sample.shelf).2).1
  = [Client.ToastInfo "No files available to download"].
Proof.
  apply (clear_files_then_download Sample.stubborn Sample.quiet
           (Client.Admin true true false) Sample.shelf [Sample.scan; Sample.memo]).
  - split; reflexivity.
  - reflexivity.
  - reflexivity.
Defined.

(** X24. Clearing the orders from the admin page closes the dialog, shows
    the success notice and reloads the page exactly when the server was
    reached and wrote the store; the orders then list as empty.  Otherwise
    the page state is unchanged (the dialog stays open), the failure is
    logged and the error notice is shown, and the page is not reloaded. *)
Theorem clear_orders_outcomes online e st w :
  (online = true → write_fault e = None →
     (Client.clearAllOrders online e st w).1
     = (Client.Admin (Client.isLoggedIn st) (Client.showClearFilesDialog st) false,
        [Client.ToastSuccess "All orders have been cleared"; Client.Reload]) ∧
     listing "data/orders.json" (Client.clearAllOrders online e st w).2 = Some []) ∧
  (online = false ∨ is_Some (write_fault e) →
     (Client.clearAllOrders online e st w).1
     = (st, [Client.LogError "Error clearing orders:";
             Client.ToastError "Failed to clear orders"])).
Proof.
  unfold Client.clearAllOrders, Client.orderAPI_deleteAll. split.
  - intros -> Hw. rewrite call_online. cbn [handle].
    unfold try_handler, delete_orders, writeOrders, mbind, io_bind.
    rewrite write_store_ok by done. cbn. split; [done|]. apply listing_insert.
  - intros [->|[[c remains] Hw]]; [done|]. destruct online; [|done].
    rewrite call_online. cbn [handle].
    unfold try_handler, delete_orders, writeOrders, mbind, io_bind.
    by rewrite (write_store_fault _ _ _ _ c remains).
Qed.

Lemma clear_orders_outcomes_witness :
  (Client.clearAllOrders true Sample.unwritable (Client.Admin true false true)
     Sample.ledger).1
  = (Client.Admin true false true,
     [Client.LogError "Error clearing orders:";
      Client.ToastError "Failed to clear orders"]).
Proof.
  destruct (clear_orders_outcomes true Sample.unwritable
              (Client.Admin true false true) Sample.ledger) as [_ H].
  apply H. right. by eexists.
Defined.

(** X25. The admin page is shown only to a browser whose local storage
    holds "true" under [adminLoggedIn]: on mounting it marks the page as
    logged in exactly then, and otherwise sends the browser to the login
    page.  Logging out removes the entry, so mounting after a logout always
    leads to the login page, whatever the storage held. *)
Theorem admin_page_guard localStorage st :
  (localStorage !! "adminLoggedIn" = Some "true" →
     Client.mount localStorage st
     = (Client.Admin true (Client.showClearFilesDialog st)
          (Client.showClearOrdersDialog st), [])) ∧
  (localStorage !! "adminLoggedIn" ≠ Some "true" →
     Client.mount localStorage st = (st, [Client.Navigate "/login"])) ∧
  Client.mount (Client.handleLogout localStorage).1 st
  = (st, [Client.Navigate "/login"]) ∧
  (∀ k, k ≠ "adminLoggedIn" →
        (Client.handleLogout localStorage).1 !! k = localStorage !! k).
Proof.
  unfold Client.mount, Client.handleLogout. cbn [fst]. split_and!.
  - intros H. by rewrite bool_decide_eq_true_2.
  - intros H. by rewrite bool_decide_eq_false_2.
  - rewrite lookup_delete_eq. by rewrite bool_decide_eq_false_2.
  - intros k Hk. by rewrite lookup_delete_ne.
Qed.

(** X26. Through the wrappers, an order that was created is listed: when
    nothing fails, [create] resolves to the stamped record, and [getAll]
    right after resolves to the orders listed before followed by that
    record. *)
Theorem client_create_then_list e e' orderData w orders :
  calm e → read_fault e' = None →
  listing "data/orders.json" w = Some orders →
  (Client.orderAPI_create true e orderData w).1
  = inr (JObj (newOrder e orderData)) ∧
  (Client.orderAPI_getAll true e' (Client.orderAPI_create true e orderData w).2).1
  = inr (rows_json (orders ++ [newOrder e orderData])).
Proof.
  intros He Hr Hl. unfold Client.orderAPI_create, Client.orderAPI_getAll.
  rewrite !call_online, (post_orders_ok _ _ _ orders) by done. cbn [fst snd].
  split; [done|].
  by rewrite (get_orders_ok _ _ (orders ++ [newOrder e orderData]))
    by (done || apply listing_insert).
Qed.

Lemma client_create_then_list_witness :
  (Client.orderAPI_getAll true Sample.quiet
     (Client.orderAPI_create true Sample.later Sample.ann Sample.ledger).2).1
  = inr (rows_json ([Sample.placed] ++ [newOrder Sample.later Sample.ann])).
Proof.
  apply (client_create_then_list Sample.later Sample.quiet Sample.ann Sample.ledger
           [Sample.placed]).
  - split; reflexivity.
  - reflexivity.
  - reflexivity.
Defined.

Lemma client_login_outcomes_witness :
  (Client.adminAPI_login true Sample.quiet "admin" "letmein" Sample.ledger).1
  = inl (Client.ApiError "Invalid credentials").
Proof.
  destruct (client_login_outcomes true Sample.quiet "admin" "letmein" Sample.ledger)
    as (_ & _ & H & _).
  apply H; [reflexivity|]. intros [_ Hp]. discriminate Hp.
Defined.

Lemma admin_page_guard_witness :
  Client.mount {["adminLoggedIn" := "yes"]} (Client.Admin false false false)
  = (Client.Admin false false false, [Client.Navigate "/login"]).
Proof.
  destruct (admin_page_guard {["adminLoggedIn" := "yes"]}
              (Client.Admin false false false)) as (_ & H & _).
  apply H. rewrite lookup_singleton_eq. discriminate.
Defined.
